(** * DNS record adapters for Hetzner and Vercel: a shallow embedding

    The development embeds the two provider clients of the repository
    ([package vercel] in [client.go] and [package hetzner] in the second
    client file) and proves the properties their specification states about
    name normalisation, TTL translation, the upsert policy and zone
    resolution.

    Conventions.
    - Go [string] is [String.string] (a sequence of bytes).
    - Go [int] and [int64] are [Z]; arithmetic that can overflow is written
      with its 64-bit wrap-around ([wrap64]).
    - A finite [float64] is the rational it denotes ([float64.t]).
    - A Go result pair [(T, error)] is the product [T * option error].
    - The HTTP transport, the JSON codec and the other library calls the
      clients make are fields of an environment record; every theorem holds
      for every environment. *)

From Stdlib Require Import ZArith String Ascii List Bool Lia.
From Stdlib Require Import QArith Qround Qabs Qreduction Lqa DecimalString.
From Stdlib Require Qcanon.
Import ListNotations.

Close Scope Q_scope.
Open Scope string_scope.

(** ** Package [strings] of the Go standard library *)

Module strings.

(** [len(s) >= len(suffix) && s[len(s)-len(suffix):] == suffix] *)
Definition HasSuffix (s suffix : string) : bool :=
  (String.length suffix <=? String.length s)%nat &&
  (substring (String.length s - String.length suffix)
             (String.length suffix) s =? suffix).

(** [if HasSuffix(s, suffix) { return s[:len(s)-len(suffix)] }; return s] *)
Definition TrimSuffix (s suffix : string) : string :=
  if HasSuffix s suffix
  then substring 0 (String.length s - String.length suffix) s
  else s.

End strings.

(** Modelled from the spec: [unFQDN] is called by [normalizeRecordName] in
    both clients but is declared in a file that is not part of the sources at
    hand.  The specification (4.1, steps 1, 2 and 4) describes it as
    stripping a single trailing "." if present. *)
Definition unFQDN (fqdn : string) : string :=
  strings.TrimSuffix fqdn ".".

(** ** The name normaliser as the specification words it (4.1)

    These definitions follow the four steps of the specification and share
    no code with [strings]; they are compared with the clients'
    [normalizeRecordName] below. *)

Module Spec.

(** Strip a single trailing "." if present. *)
Fixpoint strip_trailing_dot (s : string) : string :=
  match s with
  | EmptyString => EmptyString
  | String c rest =>
      match rest with
      | EmptyString => if Ascii.eqb c "." then EmptyString else s
      | String _ _ => String c (strip_trailing_dot rest)
      end
  end.

(** [remove_suffix s z] is [Some p] when [s] is [p] followed by [z]. *)
Fixpoint remove_suffix (s z : string) : option string :=
  if s =? z then Some EmptyString
  else match s with
       | EmptyString => None
       | String c rest => option_map (String c) (remove_suffix rest z)
       end.

Definition normalize (name zone : string) : string :=
  let n := strip_trailing_dot name in
  let z := strip_trailing_dot zone in
  strip_trailing_dot
    (match remove_suffix n z with
     | Some p => p
     | None => n
     end).

End Spec.

(** A name has an empty label when two dots follow each other. *)
Fixpoint no_double_dot (s : string) : bool :=
  match s with
  | String a (String b _ as rest) =>
      negb (Ascii.eqb a "." && Ascii.eqb b ".") && no_double_dot rest
  | _ => true
  end.

(** ** Machine integers and [float64]

    Go's [int] is taken to be 64 bits wide, as on the platforms the clients
    are built for. *)

Definition wrap64 (z : Z) : Z := ((z + 2 ^ 63) mod 2 ^ 64 - 2 ^ 63)%Z.

(** A finite [float64] is the rational it denotes; an operation rounds its
    exact result to the nearest 53-bit significand, ties to even.  Overflow
    and subnormals are out of reach of the values computed here (second
    counts of a 64-bit nanosecond duration). *)
Module float64.

Definition t := Q.

Definition pow2 (e : Z) : Q :=
  if (0 <=? e)%Z then inject_Z (2 ^ e) else Qinv (inject_Z (2 ^ (- e))).

(** The binary exponent of a non-zero rational: [floor (log2 |q|)]. *)
Definition ilog2 (q : Q) : Z :=
  let k := (Z.log2 (Z.abs (Qnum q)) - Z.log2 (Zpos (Qden q)))%Z in
  if Qle_bool (pow2 k) (Qabs q) then k else (k - 1)%Z.

(** Nearest integer, ties to even. *)
Definition rint (q : Q) : Z :=
  let f := Qfloor q in
  match Qcompare (q - inject_Z f) (1 # 2) with
  | Lt => f
  | Gt => (f + 1)%Z
  | Eq => if Z.even f then f else (f + 1)%Z
  end.

Definition round (q : Q) : t :=
  if Qeq_bool q 0 then 0%Q
  else let e := (ilog2 q - 52)%Z in
       Qred (inject_Z (rint (q / pow2 e)) * pow2 e).

(** [float64(z)] *)
Definition of_int (z : Z) : t := round (inject_Z z).

Definition add (x y : t) : t := round (x + y).

Definition div (x y : t) : t := round (x / y).

(** [int(x)]: the fraction is discarded. *)
Definition to_int (x : t) : Z := Z.quot (Qnum x) (Zpos (Qden x)).

End float64.

Module math.

(** [math.Max] on finite arguments: [if x > y { return x }; return y]. *)
Definition Max (x y : float64.t) : float64.t :=
  if Qle_bool x y then y else x.

End math.

(** ** Package [time] *)

Module time.

(** [type Duration int64], a count of nanoseconds. *)
Definition Duration := Z.

Definition Second : Duration := 1000000000%Z.

(** The product of two durations, an [int64] multiplication. *)
Definition mul (a b : Duration) : Duration := wrap64 (a * b).

(** [sec := d / Second; nsec := d % Second;
     return float64(sec) + float64(nsec)/1e9] *)
Definition Seconds (d : Duration) : float64.t :=
  let sec := Z.quot d Second in
  let nsec := Z.rem d Second in
  float64.add (float64.of_int sec)
              (float64.div (float64.of_int nsec) (inject_Z 1000000000)).

End time.

(** ** Errors, records of [libdns], HTTP *)

Definition error := string.

Module errors.

Definition New (text : string) : error := text.

End errors.

Module libdns.

Record Record := {
  ID : string;
  Type_ : string;
  Name : string;
  Value : string;
  TTL : time.Duration
}.

(** The assignment [rec.TTL = ttl]. *)
Definition set_TTL (rec : Record) (ttl : time.Duration) : Record :=
  {| ID := ID rec; Type_ := Type_ rec; Name := Name rec;
     Value := Value rec; TTL := ttl |}.

Definition set_ID (rec : Record) (id : string) : Record :=
  {| ID := id; Type_ := Type_ rec; Name := Name rec;
     Value := Value rec; TTL := TTL rec |}.

(** [libdns.Record{}] *)
Definition zero : Record :=
  {| ID := ""; Type_ := ""; Name := ""; Value := ""; TTL := 0%Z |}.

End libdns.

(** [net/textproto]: the canonical form of a header key, as [Header.Add]
    stores it.  A key with a byte outside the header-field bytes is left as
    it is; otherwise the first letter and every letter after a hyphen are
    made upper case and the other letters lower case. *)
Module textproto.

Definition validHeaderFieldByte (c : ascii) : bool :=
  let n := nat_of_ascii c in
  ((48 <=? n) && (n <=? 57))%nat
  || ((97 <=? n) && (n <=? 122))%nat
  || ((65 <=? n) && (n <=? 90))%nat
  || existsb (Ascii.eqb c)
       ["!"; "#"; "$"; "%"; "&"; "'"; "*"; "+"; "-"; "."; "^"; "_"; "`";
        "|"; "~"]%char.

Fixpoint valid (s : string) : bool :=
  match s with
  | EmptyString => true
  | String c rest => validHeaderFieldByte c && valid rest
  end.

(** The loop of [canonicalMIMEHeaderKey]; [upper] tells whether the next
    letter starts a word. *)
Fixpoint canonical (upper : bool) (s : string) : string :=
  match s with
  | EmptyString => EmptyString
  | String c rest =>
      let n := nat_of_ascii c in
      let c :=
        if (upper && (97 <=? n) && (n <=? 122))%nat
        then ascii_of_nat (n - 32)
        else if (negb upper && (65 <=? n) && (n <=? 90))%nat
             then ascii_of_nat (n + 32)
             else c in
      String c (canonical (Ascii.eqb c "-") rest)
  end.

Definition CanonicalMIMEHeaderKey (s : string) : string :=
  if valid s then canonical true s else s.

End textproto.

Module http.

(** A [context.Context] value: [None] is the nil interface, [Some k] a
    context the transport can tell from others. *)
Definition Context := option nat.

Record Request := {
  Ctx : nat;
  Method : string;
  URL : string;
  Header : list (string * string);
  Body : option string
}.

(** A response: its status code and what [ioutil.ReadAll] gives for its
    body. *)
Record Response := {
  StatusCode : Z;
  ReadAll : string * option error
}.

(** [request.Header.Add(key, value)]: the value is added under the
    canonical form of the key.  The header is kept as the list of its
    entries in the order they were added. *)
Definition Header_Add (r : Request) (key value : string) : Request :=
  {| Ctx := Ctx r; Method := Method r; URL := URL r;
     Header := Header r ++ [(textproto.CanonicalMIMEHeaderKey key, value)];
     Body := Body r |}.

End http.

(** What the clients take from outside the repository: the parser behind
    [http.NewRequestWithContext], the transport behind [client.Do] (its
    answer may depend on every request made so far), and two pure helpers. *)
Record World := {
  url_Parse : string -> option error;
  transport : list http.Request -> http.Request -> http.Response + error;
  StatusText : Z -> string;
  QueryEscape : string -> string
}.

(** ** Computations that talk to the provider

    A computation takes the requests sent so far and gives them back
    extended with its own, together with a value, or with a panic when a
    Go run-time fault stops it. *)

Inductive outcome (A : Type) : Type :=
| Returned (a : A)
| Panicked (fault : string).

Arguments Returned {A} a.
Arguments Panicked {A} fault.

Definition IO (A : Type) : Type :=
  list http.Request -> outcome A * list http.Request.

Definition ret {A} (a : A) : IO A := fun log => (Returned a, log).

Definition panic {A} (fault : string) : IO A :=
  fun log => (Panicked fault, log).

Definition bind {A B} (m : IO A) (k : A -> IO B) : IO B :=
  fun log =>
    match m log with
    | (Returned a, log') => k a log'
    | (Panicked fault, log') => (Panicked fault, log')
    end.

Notation "x <- m ;; k" := (bind m (fun x => k))
  (at level 61, m at next level, right associativity).
Notation "' pat <- m ;; k" :=
  (bind m (fun x => match x with pat => k end))
  (at level 61, pat pattern, m at next level, right associativity).

Definition nil_dereference : string :=
  "invalid memory address or nil pointer dereference".

Definition index_out_of_range_0 : string :=
  "index out of range [0] with length 0".

(** [http.NewRequestWithContext] with one of the constant methods the
    clients use: it refuses a nil context and a URL that does not parse,
    and returns a nil request with the error. *)
Definition NewRequestWithContext (W : World) (ctx : http.Context)
    (method url : string) (body : option string)
  : option http.Request * option error :=
  match ctx with
  | None => (None, Some (errors.New "net/http: nil Context"))
  | Some c =>
      match url_Parse W url with
      | Some err => (None, Some err)
      | None =>
          (Some {| http.Ctx := c; http.Method := method; http.URL := url;
                   http.Header := []; http.Body := body |}, None)
      end
  end.

(** [client.Do(request)] *)
Definition client_Do (W : World) (request : http.Request)
  : IO (http.Response + error) :=
  fun log => (Returned (transport W log request), (log ++ [request])%list).

(** [fmt.Errorf("%s (%d)", http.StatusText(code), code)] *)
Definition status_error (W : World) (code : Z) : error :=
  StatusText W code ++ " (" ++ NilEmpty.string_of_int (Z.to_int code) ++ ")".

(** ** [package vercel] *)

Module Vercel.

Record VercelRecord := {
  Id : string;
  Type_ : string;
  Name : string;
  Value : string;
  TTL : Z
}.

Record getAllRecordsResponse := { Records : list VercelRecord }.

Record createRecordResponse := { Uid : string }.

(** [encoding/json] at the three types the client uses it at. *)
Record JSON := {
  Marshal : VercelRecord -> string + error;
  Unmarshal_getAllRecordsResponse : string -> getAllRecordsResponse + error;
  Unmarshal_createRecordResponse : string -> createRecordResponse + error
}.

Definition normalizeRecordName (recordName zone : string) : string :=
  let normalized := unFQDN recordName in
  let normalized := strings.TrimSuffix normalized (unFQDN zone) in
  unFQDN normalized.

Section Client.

Context (W : World) (J : JSON).

Definition doRequest (token : string) (request : option http.Request)
  : IO (string * option error) :=
  match request with
  | None => panic nil_dereference
  | Some request =>
      let request :=
        http.Header_Add request "Authorization" ("Bearer " ++ token) in
      let request :=
        http.Header_Add request "Content-Type" "application/json" in
      r <- client_Do W request ;;
      match r with
      | inr err => ret ("", Some err)
      | inl response =>
          if ((http.StatusCode response <? 200)
              || (300 <=? http.StatusCode response))%Z
          then
            let '(data, _) := http.ReadAll response in
            ret (data, Some (status_error W (http.StatusCode response)))
          else
            let '(data, err) := http.ReadAll response in
            match err with
            | Some err => ret ("", Some err)
            | None => ret (data, None)
            end
      end
  end.

Definition getAllRecords (ctx : http.Context) (token zone : string)
  : IO (list libdns.Record * option error) :=
  let '(req, err) :=
    NewRequestWithContext W ctx "GET"
      ("https://api.vercel.com/v4/domains/" ++ zone ++ "/records") None in
  match err with
  | Some err => ret ([], Some err)
  | None =>
      '(data, err) <- doRequest token req ;;
      match err with
      | Some err => ret ([], Some err)
      | None =>
          match Unmarshal_getAllRecordsResponse J data with
          | inr err => ret ([], Some err)
          | inl result =>
              let records :=
                fold_left
                  (fun records r =>
                     (records ++
                      [{| libdns.ID := Id r;
                          libdns.Type_ := Type_ r;
                          libdns.Name := Name r;
                          libdns.Value := Value r;
                          libdns.TTL := time.mul (TTL r) time.Second |}])%list)
                  (Records result) [] in
              ret (records, None)
          end
      end
  end.

Definition createRecord (ctx : http.Context) (token zone : string)
    (r : libdns.Record) : IO (libdns.Record * option error) :=
  let reqData :=
    {| Id := "";
       Type_ := libdns.Type_ r;
       Name := normalizeRecordName (libdns.Name r) zone;
       Value := libdns.Value r;
       TTL := float64.to_int
                (math.Max (time.Seconds (libdns.TTL r)) (inject_Z 60)) |} in
  match Marshal J reqData with
  | inr err => ret (libdns.zero, Some err)
  | inl reqBuffer =>
      let '(req, err) :=
        NewRequestWithContext W ctx "POST"
          ("https://api.vercel.com/v2/domains/" ++ zone ++ "/records")
          (Some reqBuffer) in
      match err with
      | Some err => ret (libdns.zero, Some err)
      | None =>
          '(data, err) <- doRequest token req ;;
          match err with
          | Some err => ret (libdns.zero, Some err)
          | None =>
              match Unmarshal_createRecordResponse J data with
              | inr err => ret (libdns.zero, Some err)
              | inl result =>
                  ret ({| libdns.ID := Uid result;
                          libdns.Type_ := libdns.Type_ r;
                          libdns.Name :=
                            normalizeRecordName (libdns.Name r) zone;
                          libdns.Value := libdns.Value r;
                          libdns.TTL := 0%Z |}, None)
              end
          end
      end
  end.

Definition deleteRecord (ctx : http.Context) (zone token : string)
    (record : libdns.Record) : IO (option error) :=
  let '(req, err) :=
    NewRequestWithContext W ctx "DELETE"
      ("https://api.vercel.com/v2/domains/" ++ zone ++ "/records/"
       ++ libdns.ID record) None in
  match err with
  | Some err => ret (Some err)
  | None =>
      '(_, err) <- doRequest token req ;;
      match err with
      | Some err => ret (Some err)
      | None => ret None
      end
  end.

Definition updateRecord (ctx : http.Context) (token zone : string)
    (r : libdns.Record) : IO (libdns.Record * option error) :=
  err <- deleteRecord ctx zone token r ;;
  match err with
  | Some err => ret (libdns.zero, Some err)
  | None =>
      '(newRecord, err) <- createRecord ctx token zone r ;;
      match err with
      | Some err => ret (libdns.zero, Some err)
      | None => ret (newRecord, None)
      end
  end.

Definition createOrUpdateRecord (ctx : http.Context) (token zone : string)
    (r : libdns.Record) : IO (libdns.Record * option error) :=
  if (String.length (libdns.ID r) =? 0)%nat
  then createRecord ctx token zone r
  else updateRecord ctx token zone r.

End Client.

End Vercel.

(** ** [package hetzner] *)

Module Hetzner.

Module zone.

Record t := { ID : string; TTL : Z }.

(** [zone{}] *)
Definition zero : t := {| ID := ""; TTL := 0%Z |}.

End zone.

Module record.

Record t := {
  ID : string;
  ZoneID : string;
  Type_ : string;
  Name : string;
  Value : string;
  TTL : option Z
}.

End record.

Record getAllRecordsResponse := { Records : list record.t }.

Record getAllZonesResponse := { Zones : list zone.t }.

(** The field [Record] of the response, tagged [record]. *)
Record createRecordResponse := { created : record.t }.

(** The field [Record] of the response, tagged [record]. *)
Record updateRecordResponse := { updated : record.t }.

(** [encoding/json] at the five types the client uses it at. *)
Record JSON := {
  Marshal : record.t -> string + error;
  Unmarshal_getAllZonesResponse : string -> getAllZonesResponse + error;
  Unmarshal_getAllRecordsResponse : string -> getAllRecordsResponse + error;
  Unmarshal_createRecordResponse : string -> createRecordResponse + error;
  Unmarshal_updateRecordResponse : string -> updateRecordResponse + error
}.

Definition normalizeRecordName (recordName zone : string) : string :=
  let normalized := unFQDN recordName in
  let normalized := strings.TrimSuffix normalized (unFQDN zone) in
  unFQDN normalized.

Definition ptr (val : Z) : option Z := Some val.

Section Client.

Context (W : World) (J : JSON).

Definition doRequest (token : string) (request : option http.Request)
  : IO (string * option error) :=
  match request with
  | None => panic nil_dereference
  | Some request =>
      let request := http.Header_Add request "Auth-API-Token" token in
      r <- client_Do W request ;;
      match r with
      | inr err => ret ("", Some err)
      | inl response =>
          if ((http.StatusCode response <? 200)
              || (300 <=? http.StatusCode response))%Z
          then ret ("", Some (status_error W (http.StatusCode response)))
          else
            let '(data, err) := http.ReadAll response in
            match err with
            | Some err => ret ("", Some err)
            | None => ret (data, None)
            end
      end
  end.

(** The error of [http.NewRequestWithContext] is overwritten by the next
    assignment before it is read (here and in every function below), so a
    refused request reaches [doRequest] as a nil pointer. *)
Definition getZoneData (ctx : http.Context) (token name : string)
  : IO (zone.t * option error) :=
  let '(req, _) :=
    NewRequestWithContext W ctx "GET"
      ("https://dns.hetzner.com/api/v1/zones?name=" ++ QueryEscape W name)
      None in
  '(data, err) <- doRequest token req ;;
  match err with
  | Some err => ret (zone.zero, Some err)
  | None =>
      match Unmarshal_getAllZonesResponse J data with
      | inr err => ret (zone.zero, Some err)
      | inl result =>
          if (1 <? List.length (Zones result))%nat
          then ret (zone.zero, Some (errors.New "zone is ambiguous"))
          else
            match nth_error (Zones result) 0 with
            | Some z => ret (z, None)
            | None => panic index_out_of_range_0
            end
      end
  end.

Definition getAllRecords (ctx : http.Context) (token zone : string)
  : IO (list libdns.Record * option error) :=
  '(zoneData, err) <- getZoneData ctx token zone ;;
  match err with
  | Some err => ret ([], Some err)
  | None =>
      let '(req, _) :=
        NewRequestWithContext W ctx "GET"
          ("https://dns.hetzner.com/api/v1/records?zone_id="
           ++ zone.ID zoneData) None in
      '(data, err) <- doRequest token req ;;
      match err with
      | Some err => ret ([], Some err)
      | None =>
          match Unmarshal_getAllRecordsResponse J data with
          | inr err => ret ([], Some err)
          | inl result =>
              let records :=
                fold_left
                  (fun records r =>
                     let rec :=
                       {| libdns.ID := record.ID r;
                          libdns.Type_ := record.Type_ r;
                          libdns.Name := record.Name r;
                          libdns.Value := record.Value r;
                          libdns.TTL := 0%Z |} in
                     let rec :=
                       match record.TTL r with
                       | Some ttl =>
                           libdns.set_TTL rec (time.mul ttl time.Second)
                       | None =>
                           libdns.set_TTL rec
                             (time.mul (zone.TTL zoneData) time.Second)
                       end in
                     (records ++ [rec])%list)
                  (Records result) [] in
              ret (records, None)
          end
      end
  end.

Definition createRecord (ctx : http.Context) (token zone : string)
    (r : libdns.Record) : IO (libdns.Record * option error) :=
  '(zoneData, err) <- getZoneData ctx token zone ;;
  match err with
  | Some err => ret (libdns.zero, Some err)
  | None =>
      let reqData :=
        {| record.ID := "";
           record.ZoneID := zone.ID zoneData;
           record.Type_ := libdns.Type_ r;
           record.Name := normalizeRecordName (libdns.Name r) zone;
           record.Value := libdns.Value r;
           record.TTL :=
             ptr (float64.to_int (time.Seconds (libdns.TTL r))) |} in
      match Marshal J reqData with
      | inr err => ret (libdns.zero, Some err)
      | inl reqBuffer =>
          let '(req, _) :=
            NewRequestWithContext W ctx "POST"
              "https://dns.hetzner.com/api/v1/records" (Some reqBuffer) in
          '(data, err) <- doRequest token req ;;
          match err with
          | Some err => ret (libdns.zero, Some err)
          | None =>
              match Unmarshal_createRecordResponse J data with
              | inr err => ret (libdns.zero, Some err)
              | inl result =>
                  let rec :=
                    {| libdns.ID := record.ID (created result);
                       libdns.Type_ := record.Type_ (created result);
                       libdns.Name := record.Name (created result);
                       libdns.Value := record.Value (created result);
                       libdns.TTL := 0%Z |} in
                  let rec :=
                    match record.TTL (created result) with
                    | Some ttl =>
                        libdns.set_TTL rec (time.mul ttl time.Second)
                    | None =>
                        libdns.set_TTL rec
                          (time.mul (zone.TTL zoneData) time.Second)
                    end in
                  ret (rec, None)
              end
          end
      end
  end.

Definition deleteRecord (ctx : http.Context) (token : string)
    (record : libdns.Record) : IO (option error) :=
  let '(req, _) :=
    NewRequestWithContext W ctx "DELETE"
      ("https://dns.hetzner.com/api/v1/records/" ++ libdns.ID record)
      None in
  '(_, err) <- doRequest token req ;;
  match err with
  | Some err => ret (Some err)
  | None => ret None
  end.

Definition updateRecord (ctx : http.Context) (token zone : string)
    (r : libdns.Record) : IO (libdns.Record * option error) :=
  '(zoneData, err) <- getZoneData ctx token zone ;;
  match err with
  | Some err => ret (libdns.zero, Some err)
  | None =>
      let reqData :=
        {| record.ID := "";
           record.ZoneID := zone.ID zoneData;
           record.Type_ := libdns.Type_ r;
           record.Name := normalizeRecordName (libdns.Name r) zone;
           record.Value := libdns.Value r;
           record.TTL :=
             ptr (float64.to_int (time.Seconds (libdns.TTL r))) |} in
      match Marshal J reqData with
      | inr err => ret (libdns.zero, Some err)
      | inl reqBuffer =>
          let '(req, _) :=
            NewRequestWithContext W ctx "PUT"
              ("https://dns.hetzner.com/api/v1/records/" ++ libdns.ID r)
              (Some reqBuffer) in
          '(data, err) <- doRequest token req ;;
          match err with
          | Some err => ret (libdns.zero, Some err)
          | None =>
              match Unmarshal_updateRecordResponse J data with
              | inr err => ret (libdns.zero, Some err)
              | inl result =>
                  let rec :=
                    {| libdns.ID := record.ID (updated result);
                       libdns.Type_ := record.Type_ (updated result);
                       libdns.Name := record.Name (updated result);
                       libdns.Value := record.Value (updated result);
                       libdns.TTL := 0%Z |} in
                  let rec :=
                    match record.TTL (updated result) with
                    | Some ttl =>
                        libdns.set_TTL rec (time.mul ttl time.Second)
                    | None =>
                        libdns.set_TTL rec
                          (time.mul (zone.TTL zoneData) time.Second)
                    end in
                  ret (rec, None)
              end
          end
      end
  end.

Definition createOrUpdateRecord (ctx : http.Context) (token zone : string)
    (r : libdns.Record) : IO (libdns.Record * option error) :=
  if (String.length (libdns.ID r) =? 0)%nat
  then createRecord ctx token zone r
  else updateRecord ctx token zone r.

End Client.

End Hetzner.

(** The invariant of the data model read literally: the normalised name has
    no trailing dot and does not end with the dot-stripped zone. *)
Definition zone_relative (name zone : string) : Prop :=
  let out := Hetzner.normalizeRecordName name zone in
  strings.HasSuffix out "." = false /\
  strings.HasSuffix out (unFQDN zone) = false.

(** The zone listing of [getZoneData]: the request for the zones named
    [name] came back with a body that decodes to [result], the log being
    [log1] afterwards. *)
Definition zone_listing (W : World) (J : Hetzner.JSON) (ctx : http.Context)
    (token name : string) (log log1 : list http.Request)
    (result : Hetzner.getAllZonesResponse) : Prop :=
  exists data,
    Hetzner.doRequest W token
      (fst (NewRequestWithContext W ctx "GET"
              ("https://dns.hetzner.com/api/v1/zones?name="
               ++ QueryEscape W name) None)) log
    = (Returned (data, None), log1) /\
    Hetzner.Unmarshal_getAllZonesResponse J data = inl result.

(** Requests a computation adds to the log are described by a predicate on
    the added part. *)
Definition sends {A} (m : IO A) (log : list http.Request)
    (P : list http.Request -> Prop) : Prop :=
  exists sent, snd (m log) = (log ++ sent)%list /\ P sent.

(** A TTL in seconds whose nanosecond count fits a [time.Duration]. *)
Definition fits_duration (ttl : Z) : Prop :=
  (-9223372036 <= ttl <= 9223372036)%Z.

(** The inbound translation of the Hetzner client, as a relation between a
    wire record and the record handed to the caller: the four strings are
    copied, and the TTL is the wire TTL when present and the zone's default
    otherwise, multiplied by [time.Second] as a 64-bit integer. *)
Definition inbound (zoneData : Hetzner.zone.t) (wire : Hetzner.record.t)
    (rec : libdns.Record) : Prop :=
  libdns.ID rec = Hetzner.record.ID wire /\
  libdns.Type_ rec = Hetzner.record.Type_ wire /\
  libdns.Name rec = Hetzner.record.Name wire /\
  libdns.Value rec = Hetzner.record.Value wire /\
  let ttl :=
    match Hetzner.record.TTL wire with
    | Some ttl => ttl
    | None => Hetzner.zone.TTL zoneData
    end in
  libdns.TTL rec = time.mul ttl time.Second /\
  (fits_duration ttl -> libdns.TTL rec = (ttl * time.Second)%Z).

(** The payload of a Hetzner create or update for the record [r]. *)
Definition outbound (zoneData : Hetzner.zone.t) (zone : string)
    (r : libdns.Record) : Hetzner.record.t :=
  {| Hetzner.record.ID := "";
     Hetzner.record.ZoneID := Hetzner.zone.ID zoneData;
     Hetzner.record.Type_ := libdns.Type_ r;
     Hetzner.record.Name := Hetzner.normalizeRecordName (libdns.Name r) zone;
     Hetzner.record.Value := libdns.Value r;
     Hetzner.record.TTL :=
       Some (float64.to_int (time.Seconds (libdns.TTL r))) |}.

(** A request that carries the encoding of that payload. *)
Definition carries (J : Hetzner.JSON) (zone : string) (r : libdns.Record)
    (q : http.Request) : Prop :=
  exists zoneData b,
    http.Body q = Some b /\
    Hetzner.Marshal J (outbound zoneData zone r) = inl b.

(** ** A scripted provider

    The n-th request is answered by the n-th entry of a script; the codecs
    decode every body to a fixed document.  They serve to run the clients
    on concrete inputs. *)

Module Fake.

Definition world (script : list (http.Response + error)) : World :=
  {| url_Parse := fun _ => None;
     transport := fun log _ =>
       nth (List.length log) script (inr "connection refused");
     StatusText := fun code =>
       if (code =? 404)%Z then "Not Found" else "Internal Server Error";
     QueryEscape := fun s => s |}.

Definition ok (body : string) : http.Response + error :=
  inl {| http.StatusCode := 200%Z; http.ReadAll := (body, None) |}.

Definition status (code : Z) : http.Response + error :=
  inl {| http.StatusCode := code; http.ReadAll := ("", None) |}.

Definition vercel_json : Vercel.JSON :=
  {| Vercel.Marshal := fun rec => inl (Vercel.Name rec);
     Vercel.Unmarshal_getAllRecordsResponse := fun _ =>
       inl {| Vercel.Records := [] |};
     Vercel.Unmarshal_createRecordResponse := fun data =>
       inl {| Vercel.Uid := data |} |}.

Definition hetzner_json (zones : list Hetzner.zone.t)
    (records : list Hetzner.record.t) : Hetzner.JSON :=
  {| Hetzner.Marshal := fun rec => inl (Hetzner.record.Name rec);
     Hetzner.Unmarshal_getAllZonesResponse := fun _ =>
       inl {| Hetzner.Zones := zones |};
     Hetzner.Unmarshal_getAllRecordsResponse := fun _ =>
       inl {| Hetzner.Records := records |};
     Hetzner.Unmarshal_createRecordResponse := fun _ =>
       match records with
       | r :: _ => inl {| Hetzner.created := r |}
       | [] => inr "unexpected end of JSON input"
       end;
     Hetzner.Unmarshal_updateRecordResponse := fun _ =>
       match records with
       | r :: _ => inl {| Hetzner.updated := r |}
       | [] => inr "unexpected end of JSON input"
       end |}.

Definition a_zone : Hetzner.zone.t :=
  {| Hetzner.zone.ID := "z1"; Hetzner.zone.TTL := 86400%Z |}.

Definition a_record : libdns.Record :=
  {| libdns.ID := ""; libdns.Type_ := "TXT";
     libdns.Name := "_acme-challenge.example.com.";
     libdns.Value := "token"; libdns.TTL := (300 * time.Second)%Z |}.

Definition wire (ttl : option Z) : Hetzner.record.t :=
  {| Hetzner.record.ID := "r1"; Hetzner.record.ZoneID := "z1";
     Hetzner.record.Type_ := "A"; Hetzner.record.Name := "www";
     Hetzner.record.Value := "192.0.2.1"; Hetzner.record.TTL := ttl |}.

End Fake.

(** ** Requests as the clients build and send them *)

(** The request [http.NewRequestWithContext] returns when it accepts. *)
Definition built (c : nat) (method url : string) (body : option string)
  : http.Request :=
  {| http.Ctx := c; http.Method := method; http.URL := url;
     http.Header := []; http.Body := body |}.

(** A request with the headers the Vercel [doRequest] adds. *)
Definition vercel_sent (token : string) (req : http.Request) : http.Request :=
  http.Header_Add
    (http.Header_Add req "Authorization" ("Bearer " ++ token))
    "Content-Type" "application/json".

(** A request with the header the Hetzner [doRequest] adds. *)
Definition hetzner_sent (token : string) (req : http.Request)
  : http.Request :=
  http.Header_Add req "Auth-API-Token" token.

Definition is_2xx (code : Z) : Prop := (200 <= code < 300)%Z.

Definition zones_url (W : World) (name : string) : string :=
  "https://dns.hetzner.com/api/v1/zones?name=" ++ QueryEscape W name.

(** The inbound translation of the Vercel client: the four strings are
    copied as they are and the TTL is multiplied by [time.Second] as a
    64-bit integer. *)
Definition vercel_inbound (wire : Vercel.VercelRecord) (rec : libdns.Record)
  : Prop :=
  libdns.ID rec = Vercel.Id wire /\
  libdns.Type_ rec = Vercel.Type_ wire /\
  libdns.Name rec = Vercel.Name wire /\
  libdns.Value rec = Vercel.Value wire /\
  libdns.TTL rec = time.mul (Vercel.TTL wire) time.Second /\
  (fits_duration (Vercel.TTL wire) ->
   libdns.TTL rec = (Vercel.TTL wire * time.Second)%Z).

(** A codec for the Vercel client that decodes every listing to a fixed
    list of records. *)
Definition fake_vercel_listing (records : list Vercel.VercelRecord)
  : Vercel.JSON :=
  {| Vercel.Marshal := fun rec => inl (Vercel.Name rec);
     Vercel.Unmarshal_getAllRecordsResponse := fun _ =>
       inl {| Vercel.Records := records |};
     Vercel.Unmarshal_createRecordResponse := fun data =>
       inl {| Vercel.Uid := data |} |}.

Definition a_vercel_record : Vercel.VercelRecord :=
  {| Vercel.Id := "rec_1"; Vercel.Type_ := "A"; Vercel.Name := "www";
     Vercel.Value := "192.0.2.1"; Vercel.TTL := 60%Z |}.

(** The payload of a Vercel create for the record [r]. *)
Definition vercel_outbound (zone : string) (r : libdns.Record)
  : Vercel.VercelRecord :=
  {| Vercel.Id := "";
     Vercel.Type_ := libdns.Type_ r;
     Vercel.Name := Vercel.normalizeRecordName (libdns.Name r) zone;
     Vercel.Value := libdns.Value r;
     Vercel.TTL :=
       float64.to_int
         (math.Max (time.Seconds (libdns.TTL r)) (inject_Z 60)) |}.

(** A scripted provider whose URL parser refuses one URL. *)
Definition picky_world (bad : string)
    (script : list (http.Response + error)) : World :=
  {| url_Parse := fun url =>
       if (url =? bad)%string then Some "invalid URL" else None;
     transport := transport (Fake.world script);
     StatusText := StatusText (Fake.world script);
     QueryEscape := QueryEscape (Fake.world script) |}.

(** A zone whose identifier holds a control character, a tab, with which
    a URL does not parse. *)
Definition odd_zone : Hetzner.zone.t :=
  {| Hetzner.zone.ID := String "z" (String "009" "1");
     Hetzner.zone.TTL := 3600%Z |}.

(** A duration that is a whole number of seconds. *)
Definition whole_seconds (d : time.Duration) : Prop :=
  exists s, fits_duration s /\ d = (s * time.Second)%Z.

(** ** Codecs that show the TTL

    The body they write is the record's name followed by its TTL in
    decimal, so that a run shows the TTL that was sent. *)

Definition decimal (z : Z) : string := NilEmpty.string_of_int (Z.to_int z).

Definition vercel_ttl_json : Vercel.JSON :=
  {| Vercel.Marshal := fun rec =>
       inl (Vercel.Name rec ++ " ttl=" ++ decimal (Vercel.TTL rec));
     Vercel.Unmarshal_getAllRecordsResponse := fun _ =>
       inl {| Vercel.Records := [] |};
     Vercel.Unmarshal_createRecordResponse := fun data =>
       inl {| Vercel.Uid := data |} |}.

Definition hetzner_ttl_json (zones : list Hetzner.zone.t)
    (records : list Hetzner.record.t) : Hetzner.JSON :=
  {| Hetzner.Marshal := fun rec =>
       inl (Hetzner.record.Name rec
            ++ match Hetzner.record.TTL rec with
               | Some ttl => " ttl=" ++ decimal ttl
               | None => " no ttl"
               end);
     Hetzner.Unmarshal_getAllZonesResponse :=
       Hetzner.Unmarshal_getAllZonesResponse
         (Fake.hetzner_json zones records);
     Hetzner.Unmarshal_getAllRecordsResponse :=
       Hetzner.Unmarshal_getAllRecordsResponse
         (Fake.hetzner_json zones records);
     Hetzner.Unmarshal_createRecordResponse :=
       Hetzner.Unmarshal_createRecordResponse
         (Fake.hetzner_json zones records);
     Hetzner.Unmarshal_updateRecordResponse :=
       Hetzner.Unmarshal_updateRecordResponse
         (Fake.hetzner_json zones records) |}.

(** The record of the scripted runs with another TTL. *)
Definition a_record_with (ttl : time.Duration) : libdns.Record :=
  libdns.set_TTL Fake.a_record ttl.

(** * Strings: slicing and suffixes *)

Section StringFacts.

Lemma length_append (a b : string) :
  String.length (a ++ b) = String.length a + String.length b.
Proof. induction a as [|c a IH]; simpl; [reflexivity | now rewrite IH]. Qed.

Lemma append_nil_r (a : string) : a ++ "" = a.
Proof. induction a as [|c a IH]; simpl; [reflexivity | now rewrite IH]. Qed.

Lemma append_assoc (a b c : string) : (a ++ b) ++ c = a ++ (b ++ c).
Proof. induction a as [|x a IH]; simpl; [reflexivity | now rewrite IH]. Qed.

Lemma substring_zero_length (s : string) (n : nat) : substring n 0 s = "".
Proof.
  revert n; induction s as [|c s IH]; intros [|n]; simpl; auto.
Qed.

Lemma substring_whole (s : string) : substring 0 (String.length s) s = s.
Proof. induction s as [|c s IH]; simpl; [reflexivity | now rewrite IH]. Qed.

Lemma substring_prefix (p s : string) :
  substring 0 (String.length p) (p ++ s) = p.
Proof.
  induction p as [|c p IH]; simpl.
  - apply substring_zero_length.
  - now rewrite IH.
Qed.

Lemma substring_suffix (p s : string) :
  substring (String.length p) (String.length s) (p ++ s) = s.
Proof.
  induction p as [|c p IH]; simpl; [apply substring_whole | exact IH].
Qed.

Lemma substring_split (s : string) (n : nat) :
  n <= String.length s ->
  substring 0 n s ++ substring n (String.length s - n) s = s.
Proof.
  revert n; induction s as [|c s IH]; intros [|n] Hn; simpl in *.
  - reflexivity.
  - lia.
  - now rewrite substring_whole.
  - f_equal. apply IH. lia.
Qed.

(** Every string is empty or ends with a last byte. *)
Lemma string_last_cases (s : string) :
  s = "" \/ exists x c, s = x ++ String c "".
Proof.
  induction s as [|c s IH]; [now left | right].
  destruct IH as [-> | (x & d & ->)].
  - now exists "", c.
  - now exists (String c x), d.
Qed.

End StringFacts.

Section SuffixFacts.

Import strings.

Lemma HasSuffix_append (p x : string) : HasSuffix (p ++ x) x = true.
Proof.
  unfold HasSuffix. rewrite length_append.
  replace (String.length p + String.length x - String.length x)
    with (String.length p) by lia.
  rewrite substring_suffix, String.eqb_refl, andb_true_r.
  apply Nat.leb_le. lia.
Qed.

Lemma HasSuffix_inv (s x : string) :
  HasSuffix s x = true ->
  s = substring 0 (String.length s - String.length x) s ++ x.
Proof.
  unfold HasSuffix. intros H.
  apply andb_true_iff in H as [Hlen Heq].
  apply Nat.leb_le in Hlen. apply String.eqb_eq in Heq.
  set (n := String.length s - String.length x).
  transitivity (substring 0 n s ++ substring n (String.length s - n) s).
  - symmetry. apply substring_split. lia.
  - f_equal. replace (String.length s - n) with (String.length x) by lia.
    exact Heq.
Qed.

Lemma HasSuffix_iff (s x : string) :
  HasSuffix s x = true <-> exists p, s = p ++ x.
Proof.
  split.
  - intros H. eexists. now apply HasSuffix_inv.
  - intros [p ->]. apply HasSuffix_append.
Qed.

Lemma TrimSuffix_append (p x : string) : TrimSuffix (p ++ x) x = p.
Proof.
  unfold TrimSuffix. rewrite HasSuffix_append, length_append.
  replace (String.length p + String.length x - String.length x)
    with (String.length p) by lia.
  apply substring_prefix.
Qed.

Lemma TrimSuffix_none (s x : string) :
  HasSuffix s x = false -> TrimSuffix s x = s.
Proof. unfold TrimSuffix. now intros ->. Qed.

(** What [TrimSuffix] returns is always a prefix of its argument. *)
Lemma TrimSuffix_prefix (s x : string) :
  exists t, s = TrimSuffix s x ++ t.
Proof.
  destruct (HasSuffix s x) eqn:E.
  - apply HasSuffix_iff in E as [p ->].
    rewrite TrimSuffix_append. now exists x.
  - rewrite TrimSuffix_none by assumption.
    exists "". now rewrite append_nil_r.
Qed.

Lemma HasSuffix_last (x : string) (c : ascii) :
  HasSuffix (x ++ String c "") "." = Ascii.eqb c ".".
Proof.
  unfold HasSuffix. rewrite length_append. simpl String.length.
  replace (String.length x + 1 - 1) with (String.length x) by lia.
  pose proof (substring_suffix x (String c "")) as E.
  simpl String.length in E. rewrite E.
  replace (1 <=? String.length x + 1)%nat with true
    by (symmetry; apply Nat.leb_le; lia).
  simpl. now destruct (Ascii.eqb c ".").
Qed.

Lemma HasSuffix_dot_append (a z : string) :
  z <> "" -> HasSuffix (a ++ z) "." = HasSuffix z ".".
Proof.
  intros Hz. destruct (string_last_cases z) as [-> | (x & c & ->)].
  - contradiction.
  - rewrite <- append_assoc. now rewrite !HasSuffix_last.
Qed.

Lemma unFQDN_dot (s : string) : unFQDN (s ++ ".") = s.
Proof. apply TrimSuffix_append. Qed.

Lemma unFQDN_no_dot (s : string) :
  HasSuffix s "." = false -> unFQDN s = s.
Proof. apply TrimSuffix_none. Qed.

Lemma unFQDN_prefix (s : string) : exists t, s = unFQDN s ++ t.
Proof. apply TrimSuffix_prefix. Qed.

End SuffixFacts.

(** * The name normaliser *)

Section SpecNormalizer.

Import strings.

Lemma strip_trailing_dot_last (x : string) (c : ascii) :
  Spec.strip_trailing_dot (x ++ String c "") =
  if Ascii.eqb c "." then x else x ++ String c "".
Proof.
  induction x as [|d x IH].
  - reflexivity.
  - change (String d x ++ String c "") with (String d (x ++ String c "")).
    destruct (x ++ String c "") as [|e r] eqn:E.
    + destruct x; discriminate.
    + change (Spec.strip_trailing_dot (String d (String e r)))
        with (String d (Spec.strip_trailing_dot (String e r))).
      rewrite IH. now destruct (Ascii.eqb c ".").
Qed.

(** The recursive reading of "strip a single trailing dot" and the
    [TrimSuffix] reading agree. *)
Lemma strip_trailing_dot_unFQDN (s : string) :
  Spec.strip_trailing_dot s = unFQDN s.
Proof.
  destruct (string_last_cases s) as [-> | (x & c & ->)]; [reflexivity|].
  rewrite strip_trailing_dot_last.
  destruct (Ascii.eqb_spec c ".") as [-> | Hc].
  - symmetry. apply unFQDN_dot.
  - symmetry. apply unFQDN_no_dot. rewrite HasSuffix_last.
    now apply Ascii.eqb_neq.
Qed.

Lemma remove_suffix_refl (z : string) :
  Spec.remove_suffix z z = Some "".
Proof.
  destruct z as [|a z]; [reflexivity|].
  pose proof (String.eqb_refl (String a z)) as E.
  simpl in *. now rewrite E.
Qed.

Lemma remove_suffix_append (p z : string) :
  Spec.remove_suffix (p ++ z) z = Some p.
Proof.
  induction p as [|c p IH].
  - apply remove_suffix_refl.
  - cbn [Spec.remove_suffix append].
    destruct (String.eqb_spec (String c (p ++ z)) z) as [E | _].
    + apply (f_equal String.length) in E. simpl in E.
      rewrite length_append in E. lia.
    + now rewrite IH.
Qed.

Lemma remove_suffix_sound (s z p : string) :
  Spec.remove_suffix s z = Some p -> s = p ++ z.
Proof.
  revert p; induction s as [|c s IH]; intros p; cbn [Spec.remove_suffix].
  - destruct z; simpl; [|discriminate]. now intros [= <-].
  - destruct (String.eqb_spec (String c s) z) as [<- | _].
    + now intros [= <-].
    + destruct (Spec.remove_suffix s z) as [q|]; [|discriminate].
      intros [= <-]. simpl. f_equal. now apply IH.
Qed.

Lemma remove_suffix_TrimSuffix (s z : string) :
  match Spec.remove_suffix s z with
  | Some p => p
  | None => s
  end = TrimSuffix s z.
Proof.
  destruct (HasSuffix s z) eqn:E.
  - apply HasSuffix_iff in E as [p ->].
    now rewrite remove_suffix_append, TrimSuffix_append.
  - rewrite TrimSuffix_none by assumption.
    destruct (Spec.remove_suffix s z) as [p|] eqn:R; [|reflexivity].
    apply remove_suffix_sound in R. subst s.
    now rewrite HasSuffix_append in E.
Qed.

End SpecNormalizer.

Section Normalizer.

Import strings.

Lemma normalizeRecordName_same (name zone : string) :
  Vercel.normalizeRecordName name zone =
  Hetzner.normalizeRecordName name zone.
Proof. reflexivity. Qed.

(** The four specification examples of 8. *)
Example normalize_www :
  Hetzner.normalizeRecordName "www.example.com." "example.com" = "www".
Proof. reflexivity. Qed.

Example normalize_root :
  Hetzner.normalizeRecordName "example.com" "example.com" = "".
Proof. reflexivity. Qed.

Example normalize_other :
  Hetzner.normalizeRecordName "www.example.com" "other.com"
  = "www.example.com".
Proof. reflexivity. Qed.

(** C1. For every record name and zone, [normalizeRecordName] of either
    provider returns what the four steps of the specification return:
    strip one trailing dot from the name, strip one trailing dot from the
    zone, remove the stripped zone from the end of the stripped name when
    it is a suffix of it, and strip one trailing dot from the result. *)
Theorem normalizeRecordName_refines_spec (name zone : string) :
  Vercel.normalizeRecordName name zone = Spec.normalize name zone /\
  Hetzner.normalizeRecordName name zone = Spec.normalize name zone.
Proof.
  assert (H : Hetzner.normalizeRecordName name zone
              = Spec.normalize name zone).
  { unfold Hetzner.normalizeRecordName, Spec.normalize.
    rewrite !strip_trailing_dot_unFQDN.
    now rewrite remove_suffix_TrimSuffix. }
  split; [rewrite normalizeRecordName_same|]; exact H.
Qed.

(** The relational reading of step 3, for the specification's function:
    the suffix is removed exactly when the name is some prefix followed by
    the zone. *)
Lemma remove_suffix_spec (s z : string) :
  (forall p, s = p ++ z -> Spec.remove_suffix s z = Some p) /\
  ((forall p, s <> p ++ z) -> Spec.remove_suffix s z = None).
Proof.
  split.
  - intros p ->. apply remove_suffix_append.
  - intros H. destruct (Spec.remove_suffix s z) as [p|] eqn:R; [|reflexivity].
    apply remove_suffix_sound in R. now apply H in R.
Qed.

End Normalizer.

Section ZoneRelative.

Import strings.

Lemma no_double_dot_prefix (q t : string) :
  no_double_dot (q ++ t) = true -> no_double_dot q = true.
Proof.
  induction q as [|a q IH]; [reflexivity|].
  destruct q as [|b q]; [reflexivity|].
  change (String a (String b q) ++ t) with (String a (String b q ++ t)).
  change (String b q ++ t) with (String b (q ++ t)) at 1.
  cbn [no_double_dot]. intros H.
  apply andb_true_iff in H as [H1 H2].
  rewrite H1. now apply IH.
Qed.

Lemma no_double_dot_ends (x : string) : no_double_dot (x ++ "..") = false.
Proof.
  induction x as [|a x IH]; [reflexivity|].
  change (String a x ++ "..") with (String a (x ++ "..")).
  destruct (x ++ "..") as [|b r] eqn:E.
  - destruct x; discriminate.
  - cbn [no_double_dot]. cbn [no_double_dot] in IH.
    rewrite IH. apply andb_false_r.
Qed.

Lemma unFQDN_no_trailing_dot (q : string) :
  no_double_dot q = true -> HasSuffix (unFQDN q) "." = false.
Proof.
  intros Hq. destruct (HasSuffix q ".") eqn:E.
  - apply HasSuffix_iff in E as [q1 ->]. rewrite unFQDN_dot.
    destruct (HasSuffix q1 ".") eqn:E1; [|reflexivity].
    apply HasSuffix_iff in E1 as [q2 ->].
    rewrite append_assoc in Hq. simpl in Hq.
    now rewrite no_double_dot_ends in Hq.
  - now rewrite unFQDN_no_dot.
Qed.

Lemma TrimSuffix_empty (s : string) : TrimSuffix s "" = s.
Proof.
  rewrite <- (append_nil_r s) at 1. apply TrimSuffix_append.
Qed.

(** Qualifying any relative name [r] with the zone and normalising gives
    [r] back, except that an empty zone lets the last step strip a dot
    that belongs to [r]. *)
Lemma normalize_requalified (r zone : string) :
  zone <> "" \/ HasSuffix r "." = false ->
  Hetzner.normalizeRecordName (r ++ "." ++ zone) zone = r.
Proof.
  intros H. unfold Hetzner.normalizeRecordName.
  destruct (HasSuffix zone ".") eqn:Ez.
  - apply HasSuffix_iff in Ez as [z ->]. rewrite unFQDN_dot.
    replace (r ++ "." ++ z ++ ".") with (((r ++ ".") ++ z) ++ ".")
      by (now rewrite !append_assoc).
    now rewrite unFQDN_dot, TrimSuffix_append, unFQDN_dot.
  - rewrite (unFQDN_no_dot zone Ez).
    destruct (string_dec zone "") as [-> | Hz].
    + destruct H as [H | H]; [contradiction|].
      change ("." ++ "") with ".".
      now rewrite unFQDN_dot, TrimSuffix_empty, (unFQDN_no_dot r).
    + replace (r ++ "." ++ zone) with ((r ++ ".") ++ zone)
        by (now rewrite append_assoc).
      rewrite (unFQDN_no_dot ((r ++ ".") ++ zone))
        by (now rewrite HasSuffix_dot_append).
      now rewrite TrimSuffix_append, unFQDN_dot.
Qed.

End ZoneRelative.

Section NormalizerClaims.

Import strings.

(** C2, as stated, fails.  The zone is removed once only, so the label
    [www.com] of the zone [com] is returned as it should be although it
    ends with the zone; and a name with empty labels keeps a trailing
    dot, since each step strips one dot only. *)
Lemma zone_relative_counterexample :
  ~ zone_relative "www.com.com." "com." /\
  ~ zone_relative "www..." "example.com".
Proof.
  split; intros [H1 H2]; vm_compute in H1, H2; discriminate.
Qed.

(** C2, amended.  For every record name and zone the output of
    [normalizeRecordName] (either provider) is the zone-relative label:
    it has no trailing dot whenever the name has no two consecutive dots;
    it is exactly [label] whenever the dot-stripped name is [label], a
    dot and the dot-stripped zone; and it is empty whenever the
    dot-stripped name is the dot-stripped zone. *)
Theorem normalized_name_is_relative_label (name zone : string) :
  Vercel.normalizeRecordName name zone
    = Hetzner.normalizeRecordName name zone /\
  (no_double_dot name = true ->
   HasSuffix (Hetzner.normalizeRecordName name zone) "." = false) /\
  (forall label,
     unFQDN name = label ++ "." ++ unFQDN zone ->
     Hetzner.normalizeRecordName name zone = label) /\
  (unFQDN name = unFQDN zone ->
   Hetzner.normalizeRecordName name zone = "").
Proof.
  split; [reflexivity|].
  unfold Hetzner.normalizeRecordName. repeat split.
  - intros Hname. apply unFQDN_no_trailing_dot.
    destruct (unFQDN_prefix name) as [t1 E1].
    destruct (TrimSuffix_prefix (unFQDN name) (unFQDN zone)) as [t2 E2].
    rewrite E1, E2, append_assoc in Hname.
    now apply no_double_dot_prefix in Hname.
  - intros label ->.
    replace (label ++ "." ++ unFQDN zone)
      with ((label ++ ".") ++ unFQDN zone) by (now rewrite append_assoc).
    now rewrite TrimSuffix_append, unFQDN_dot.
  - intros ->.
    change (unFQDN zone) with ("" ++ unFQDN zone) at 1.
    now rewrite TrimSuffix_append.
Qed.

Lemma normalized_name_is_relative_label_witness :
  HasSuffix (Hetzner.normalizeRecordName "www.example.com." "example.com.")
            "." = false /\
  Hetzner.normalizeRecordName "_acme.www.example.com." "example.com"
    = "_acme.www" /\
  Hetzner.normalizeRecordName "example.com." "example.com." = "".
Proof.
  split; [|split].
  - apply (normalized_name_is_relative_label
             "www.example.com." "example.com."). reflexivity.
  - apply (normalized_name_is_relative_label
             "_acme.www.example.com." "example.com"). reflexivity.
  - apply (normalized_name_is_relative_label
             "example.com." "example.com."). reflexivity.
Defined.

(** C3, as stated, fails when the zone is empty and the normalised name
    still ends with a dot: the second pass strips that dot. *)
Lemma requalify_counterexample :
  Hetzner.normalizeRecordName
    (Hetzner.normalizeRecordName "a..." "" ++ "." ++ "") ""
  <> Hetzner.normalizeRecordName "a..." "".
Proof. vm_compute. discriminate. Qed.

(** C3, amended.  For every record name and every zone that is not the
    empty string (or, with an empty zone, whenever the normalised name
    does not end with a dot), qualifying the normalised name with the
    zone again and normalising is a fixed point, in both providers. *)
Theorem requalify_fixed_point (name zone : string) :
  zone <> "" \/
  HasSuffix (Hetzner.normalizeRecordName name zone) "." = false ->
  Hetzner.normalizeRecordName
    (Hetzner.normalizeRecordName name zone ++ "." ++ zone) zone
  = Hetzner.normalizeRecordName name zone /\
  Vercel.normalizeRecordName
    (Vercel.normalizeRecordName name zone ++ "." ++ zone) zone
  = Vercel.normalizeRecordName name zone.
Proof.
  intros H. split; exact (normalize_requalified _ _ H).
Qed.

Lemma requalify_fixed_point_witness :
  Hetzner.normalizeRecordName
    (Hetzner.normalizeRecordName "www.example.com." "example.com."
       ++ "." ++ "example.com.") "example.com."
  = Hetzner.normalizeRecordName "www.example.com." "example.com.".
Proof.
  apply (requalify_fixed_point "www.example.com." "example.com.").
  left. discriminate.
Defined.

End NormalizerClaims.

(** * Numbers: seconds and the TTL floor *)

Section Numbers.

Open Scope Z_scope.

Lemma to_int_le (x : float64.t) (k : Z) :
  0 <= k -> Qle x (inject_Z k) -> float64.to_int x <= k.
Proof.
  intros Hk H. unfold float64.to_int, Qle in *. simpl in H.
  destruct x as [n d]; simpl in *.
  destruct (Z.le_gt_cases 0 n) as [Hn | Hn].
  - rewrite Z.quot_div_nonneg by lia.
    apply Z.div_le_upper_bound; lia.
  - pose proof (Z.quot_opp_l n (Z.pos d) ltac:(lia)) as E.
    pose proof (Z.quot_pos (- n) (Z.pos d) ltac:(lia) ltac:(lia)). lia.
Qed.

Lemma to_int_ge (x : float64.t) (k : Z) :
  0 <= k -> Qle (inject_Z k) x -> k <= float64.to_int x.
Proof.
  intros Hk H. unfold float64.to_int, Qle in *. simpl in H.
  destruct x as [n d]; simpl in *.
  rewrite Z.quot_div_nonneg by nia.
  apply Z.div_le_lower_bound; lia.
Qed.

Lemma to_int_inject (k : Z) : float64.to_int (inject_Z k) = k.
Proof. unfold float64.to_int. simpl. apply Z.quot_1_r. Qed.

(** Truncation commutes with the floor of 60 that [math.Max] applies. *)
Lemma to_int_Max_60 (x : float64.t) :
  float64.to_int (math.Max x (inject_Z 60)) = Z.max (float64.to_int x) 60.
Proof.
  unfold math.Max. destruct (Qle_bool x (inject_Z 60)) eqn:E.
  - apply Qle_bool_iff in E. rewrite to_int_inject.
    pose proof (to_int_le x 60 ltac:(lia) E). lia.
  - assert (H : Qle (inject_Z 60) x).
    { apply Qlt_le_weak, Qnot_le_lt. intros H.
      apply Qle_bool_iff in H. congruence. }
    pose proof (to_int_ge x 60 ltac:(lia) H). lia.
Qed.

End Numbers.

Section WholeSeconds.

Open Scope Z_scope.

Lemma rint_comp (p q : Q) : Qeq p q -> float64.rint p = float64.rint q.
Proof.
  intros H. unfold float64.rint.
  rewrite (Qfloor_comp _ _ H).
  assert (E : Qeq (p - inject_Z (Qfloor q)) (q - inject_Z (Qfloor q)))
    by (now rewrite H).
  now rewrite (Qcompare_comp _ _ E _ _ (Qeq_refl _)).
Qed.

Lemma rint_inject (z : Z) : float64.rint (inject_Z z) = z.
Proof.
  unfold float64.rint. rewrite Qfloor_Z.
  replace (Qcompare (inject_Z z - inject_Z z) (1 # 2)) with Lt;
    [reflexivity|].
  symmetry. apply -> Qlt_alt. 
  unfold Qlt, Qminus, Qplus, Qopp. simpl. lia.
Qed.

Lemma ilog2_le (s : Z) : Z.abs s < 2 ^ 53 -> float64.ilog2 (inject_Z s) <= 52.
Proof.
  intros H. unfold float64.ilog2. simpl.
  assert (Z.log2 (Z.abs s) <= 52).
  { destruct (Z.eq_dec (Z.abs s) 0) as [-> | Hs]; [simpl; lia|].
    apply Z.lt_succ_r. apply Z.log2_lt_pow2; lia. }
  destruct (Qle_bool _ _); lia.
Qed.

Lemma pow2_nonpos (e : Z) :
  e <= 0 -> Qeq (float64.pow2 e) (Qinv (inject_Z (2 ^ (- e)))).
Proof.
  intros H. unfold float64.pow2.
  destruct (Z.leb_spec 0 e) as [H0 | H0]; [|reflexivity].
  replace e with 0 by lia. reflexivity.
Qed.

(** Integers below 2^53 in absolute value are [float64] values. *)
Lemma round_inject (s : Z) :
  Z.abs s < 2 ^ 53 -> float64.round (inject_Z s) = inject_Z s.
Proof.
  intros H. unfold float64.round.
  destruct (Qeq_bool (inject_Z s) 0) eqn:E0.
  - apply Qeq_bool_eq in E0. unfold Qeq in E0. simpl in E0.
    replace s with 0 by lia. reflexivity.
  - set (e := float64.ilog2 (inject_Z s) - 52).
    assert (He : e <= 0) by (pose proof (ilog2_le s H); lia).
    set (m := 2 ^ (- e)).
    assert (Hm : 0 < m) by (apply Z.pow_pos_nonneg; lia).
    assert (Hp : Qeq (float64.pow2 e) (Qinv (inject_Z m)))
      by (apply pow2_nonpos; exact He).
    assert (Hq : Qeq (inject_Z s / float64.pow2 e) (inject_Z (s * m))).
    { rewrite Hp, inject_Z_mult. unfold Qdiv. now rewrite Qinv_involutive. }
    rewrite (rint_comp _ _ Hq), rint_inject.
    assert (Hr : Qeq (inject_Z (s * m) * float64.pow2 e) (inject_Z s)).
    { rewrite Hp, inject_Z_mult, <- Qmult_assoc, Qmult_inv_r.
      - apply Qmult_1_r.
      - unfold Qeq. simpl. lia. }
    rewrite (Qred_complete _ _ Hr).
    apply Qcanon.Qred_identity. simpl. apply Z.gcd_1_r.
Qed.

(** The float conversion is exact on a whole number of seconds. *)
Lemma Seconds_whole (s : Z) :
  fits_duration s -> time.Seconds (s * time.Second) = inject_Z s.
Proof.
  intros H. unfold fits_duration in H. unfold time.Seconds.
  assert (Hs : Z.abs s < 2 ^ 53) by lia.
  rewrite Z.quot_mul, Z.rem_mul by (unfold time.Second; lia).
  change (float64.div (float64.of_int 0) (inject_Z 1000000000)) with 0%Q.
  unfold float64.of_int, float64.add. rewrite (round_inject s Hs).
  replace (inject_Z s + 0)%Q with (inject_Z s).
  - apply round_inject, Hs.
  - unfold Qplus, inject_Z. simpl. f_equal. lia.
Qed.

Lemma to_int_Seconds_whole (s : Z) :
  fits_duration s -> float64.to_int (time.Seconds (s * time.Second)) = s.
Proof. intros H. rewrite (Seconds_whole s H). apply to_int_inject. Qed.

End WholeSeconds.

Section SecondsRange.

Open Scope Z_scope.

Lemma pow2_shift (e c : Z) :
  0 <= c -> 0 <= e + c ->
  Qeq (float64.pow2 e * inject_Z (2 ^ c)) (inject_Z (2 ^ (e + c))).
Proof.
  intros Hc Hec. unfold float64.pow2.
  destruct (Z.leb_spec 0 e) as [He | He].
  - rewrite <- inject_Z_mult, <- Z.pow_add_r by lia. reflexivity.
  - replace c with (- e + (e + c)) at 1 by lia.
    rewrite Z.pow_add_r, inject_Z_mult by lia.
    assert (H : ~ Qeq (inject_Z (2 ^ (- e))) 0).
    { unfold Qeq. simpl. pose proof (Z.pow_pos_nonneg 2 (- e)). lia. }
    field. exact H.
Qed.

Lemma pow2_pos (e : Z) : Qlt 0 (float64.pow2 e).
Proof.
  unfold float64.pow2. destruct (Z.leb_spec 0 e) as [He | He].
  - unfold Qlt. simpl. pose proof (Z.pow_pos_nonneg 2 e). lia.
  - apply Qinv_lt_0_compat. unfold Qlt. simpl.
    pose proof (Z.pow_pos_nonneg 2 (- e)). lia.
Qed.

Lemma inject_Z_pow2_pos (c : Z) : 0 <= c -> Qlt 0 (inject_Z (2 ^ c)).
Proof.
  intros H. unfold Qlt. simpl. pose proof (Z.pow_pos_nonneg 2 c). lia.
Qed.

Lemma pow2_le (a b : Z) : a <= b -> Qle (float64.pow2 a) (float64.pow2 b).
Proof.
  intros H. set (c := Z.abs a + Z.abs b).
  assert (Hc : 0 <= c) by lia.
  pose proof (pow2_shift a c Hc ltac:(lia)) as Ha.
  pose proof (pow2_shift b c Hc ltac:(lia)) as Hb.
  pose proof (inject_Z_pow2_pos c Hc) as Hp.
  apply (Qmult_le_r _ _ _ Hp). rewrite Ha, Hb.
  rewrite <- Zle_Qle. apply Z.pow_le_mono_r; lia.
Qed.

(** [ilog2] does not overshoot. *)
Lemma ilog2_lower (q : Q) :
  Qlt 0 q -> Qle (float64.pow2 (float64.ilog2 q)) q.
Proof.
  intros Hq. unfold float64.ilog2.
  rewrite (Qabs_pos q) by (now apply Qlt_le_weak).
  destruct q as [n d]. simpl Qnum. simpl Qden.
  assert (Hn : 0 < n) by (unfold Qlt in Hq; simpl in Hq; lia).
  rewrite (Z.abs_eq n) by lia.
  set (a := Z.log2 n). set (b := Z.log2 (Z.pos d)).
  destruct (Qle_bool (float64.pow2 (a - b)) (n # d)) eqn:E.
  - now apply Qle_bool_iff.
  - pose proof (Z.log2_spec n Hn) as [Ha _]. fold a in Ha.
    pose proof (Z.log2_spec (Z.pos d) ltac:(lia)) as [_ Hb]. fold b in Hb.
    pose proof (Z.log2_nonneg (Z.pos d)) as Hb0. fold b in Hb0.
    pose proof (Z.log2_nonneg n) as Ha0. fold a in Ha0.
    pose proof (pow2_shift (a - b - 1) (b + 1) ltac:(lia) ltac:(lia)) as Hs.
    replace (a - b - 1 + (b + 1)) with a in Hs by lia.
    pose proof (pow2_pos (a - b - 1)) as Hp.
    (* pow2 (a-b-1) * d <= pow2 (a-b-1) * 2^(b+1) = 2^a <= n *)
    assert (H1 : Qle (float64.pow2 (a - b - 1) * inject_Z (Z.pos d))
                     (inject_Z n)).
    { apply Qle_trans with (float64.pow2 (a - b - 1) * inject_Z (2 ^ (b + 1)))%Q.
      - apply Qmult_le_l; [exact Hp|]. rewrite <- Zle_Qle.
        rewrite <- Z.add_1_r in Hb. lia.
      - rewrite Hs. now rewrite <- Zle_Qle. }
    assert (Hd : Qlt 0 (inject_Z (Z.pos d))) by (unfold Qlt; simpl; lia).
    apply (Qmult_le_r _ _ _ Hd).
    eapply Qle_trans; [exact H1|].
    unfold Qle, Qmult, inject_Z. simpl. lia.
Qed.

Lemma ilog2_lt (q : Q) (j : Z) :
  Qlt 0 q -> Qlt q (float64.pow2 j) -> float64.ilog2 q < j.
Proof.
  intros Hq Hj. destruct (Z.lt_ge_cases (float64.ilog2 q) j) as [H | H];
    [exact H|].
  exfalso. apply pow2_le in H.
  pose proof (ilog2_lower q Hq). 
  apply (Qlt_irrefl q). eapply Qlt_le_trans; [exact Hj|].
  eapply Qle_trans; eassumption.
Qed.

Lemma rint_cases (q : Q) :
  float64.rint q = Qfloor q \/
  float64.rint q = Qfloor q + 1 /\ Qle (1 # 2) (q - inject_Z (Qfloor q)).
Proof.
  unfold float64.rint.
  destruct (Qcompare (q - inject_Z (Qfloor q)) (1 # 2)) eqn:E.
  - apply Qeq_alt in E. destruct (Z.even (Qfloor q)); [now left | right].
    split; [reflexivity|]. rewrite E. apply Qle_refl.
  - now left.
  - right. split; [reflexivity|]. apply Qgt_alt in E. now apply Qlt_le_weak.
Qed.

Lemma rint_upper (q : Q) : Qle (inject_Z (float64.rint q)) (q + (1 # 2)).
Proof.
  pose proof (Qfloor_le q) as Hf.
  destruct (rint_cases q) as [-> | [-> H]].
  - lra.
  - rewrite inject_Z_plus. change (inject_Z 1) with 1%Q. lra.
Qed.

Lemma rint_ge (q : Q) (N : Z) : Qle (inject_Z N) q -> N <= float64.rint q.
Proof.
  intros H. apply Qfloor_resp_le in H. rewrite Qfloor_Z in H.
  destruct (rint_cases q) as [-> | [-> _]]; lia.
Qed.

Lemma round_nonzero (q : Q) :
  ~ Qeq q 0 ->
  Qeq (float64.round q)
      (inject_Z (float64.rint (q / float64.pow2 (float64.ilog2 q - 52)))
       * float64.pow2 (float64.ilog2 q - 52)).
Proof.
  intros H. unfold float64.round.
  destruct (Qeq_bool q 0) eqn:E.
  - apply Qeq_bool_eq in E. contradiction.
  - apply Qred_correct.
Qed.

(** A positive [x] in a binade whose spacing divides 1, between an integer
    [k] and [k + 1 - delta]: rounding stays in [[k, k + 1)] as soon as
    [delta] is more than half the spacing. *)
Lemma round_between (x : Q) (k j : Z) (delta : Q) :
  Qlt 0 x -> 0 <= k -> j <= 52 ->
  Qlt x (float64.pow2 j) ->
  Qle (inject_Z k) x ->
  Qle x (inject_Z k + 1 - delta) ->
  Qlt (float64.pow2 (j - 53)) (delta * (2 # 1)) ->
  Qle (inject_Z k) (float64.round x) /\
  Qlt (float64.round x) (inject_Z k + 1).
Proof.
  intros Hx Hk Hj Hxj Hlo Hhi Hd.
  assert (Hx0 : ~ Qeq x 0) by (intros E; rewrite E in Hx; discriminate).
  rewrite (round_nonzero x Hx0).
  set (e := float64.ilog2 x - 52).
  assert (He : e <= j - 53).
  { pose proof (ilog2_lt x j Hx Hxj). unfold e. lia. }
  assert (He0 : e <= 0) by lia.
  set (M := 2 ^ (- e)).
  pose proof (pow2_shift e (- e) ltac:(lia) ltac:(lia)) as Hs.
  replace (e + - e) with 0 in Hs by lia. fold M in Hs.
  change (inject_Z (2 ^ 0)) with 1%Q in Hs.
  pose proof (pow2_pos e) as Hp.
  pose proof (inject_Z_pow2_pos (- e) ltac:(lia)) as HM. fold M in HM.
  pose proof (pow2_le e (j - 53) He) as Hle.
  assert (Hq : Qeq (x / float64.pow2 e) (x * inject_Z M)).
  { assert (Hp0 : ~ Qeq (float64.pow2 e) 0)
      by (intros E; rewrite E in Hp; discriminate).
    assert (HMinv : Qeq (inject_Z M) (/ float64.pow2 e)).
    { apply (Qmult_inj_l _ _ (float64.pow2 e) Hp0).
      now rewrite Hs, Qmult_inv_r. }
    rewrite HMinv. reflexivity. }
  set (R := float64.rint (x / float64.pow2 e)).
  assert (Hlow : k * M <= R).
  { apply rint_ge. rewrite Hq, inject_Z_mult.
    apply Qmult_le_compat_r; [exact Hlo | now apply Qlt_le_weak]. }
  pose proof (rint_upper (x / float64.pow2 e)) as Hup. fold R in Hup.
  rewrite Hq in Hup.
  split.
  - apply Qle_trans with (inject_Z (k * M) * float64.pow2 e)%Q.
    + rewrite inject_Z_mult, <- Qmult_assoc, (Qmult_comm (inject_Z M)), Hs.
      rewrite Qmult_1_r. apply Qle_refl.
    + apply Qmult_le_compat_r; [|now apply Qlt_le_weak].
      now rewrite <- Zle_Qle.
  - apply (Qmult_lt_r _ _ _ HM).
    rewrite <- Qmult_assoc, Hs, Qmult_1_r.
    (* R <= x M + 1/2 <= (k + 1 - delta) M + 1/2 < (k + 1) M *)
    assert (H1 : Qle (x * inject_Z M)
                     ((inject_Z k + 1 - delta) * inject_Z M)).
    { apply Qmult_le_compat_r; [exact Hhi | now apply Qlt_le_weak]. }
    assert (H2 : Qlt (1 # 2) (delta * inject_Z M)).
    { (* pow2 e <= pow2 (j-53) < 2 delta, times M *)
      assert (H3 : Qlt (float64.pow2 e) (delta * (2 # 1)))
        by (eapply Qle_lt_trans; eassumption).
      apply (Qmult_lt_r _ _ _ HM) in H3. rewrite Hs in H3. lra. }
    lra.
Qed.

(** Below 1 the rounding error is at most 2^-54, and a positive value
    stays positive. *)
Lemma round_fraction (v : Q) :
  Qlt 0 v -> Qlt v 1 ->
  Qlt 0 (float64.round v) /\
  Qle (float64.round v) (v + (1 # 2 ^ 54)).
Proof.
  intros Hv Hv1.
  assert (Hv0 : ~ Qeq v 0) by (intros E; rewrite E in Hv; discriminate).
  rewrite (round_nonzero v Hv0).
  set (e := float64.ilog2 v - 52).
  assert (He : e <= - 53).
  { pose proof (ilog2_lt v 0 Hv Hv1). unfold e. lia. }
  set (M := 2 ^ (- e)).
  pose proof (pow2_shift e (- e) ltac:(lia) ltac:(lia)) as Hs.
  replace (e + - e) with 0 in Hs by lia. fold M in Hs.
  change (inject_Z (2 ^ 0)) with 1%Q in Hs.
  pose proof (pow2_pos e) as Hp.
  pose proof (inject_Z_pow2_pos (- e) ltac:(lia)) as HM. fold M in HM.
  assert (Hp0 : ~ Qeq (float64.pow2 e) 0)
    by (intros E; rewrite E in Hp; discriminate).
  assert (HMinv : Qeq (inject_Z M) (/ float64.pow2 e)).
  { apply (Qmult_inj_l _ _ (float64.pow2 e) Hp0).
    now rewrite Hs, Qmult_inv_r. }
  assert (Hq : Qeq (v / float64.pow2 e) (v * inject_Z M))
    by (rewrite HMinv; reflexivity).
  set (R := float64.rint (v / float64.pow2 e)).
  (* v M >= pow2 (e + 52) M = 2^52 *)
  pose proof (ilog2_lower v Hv) as Hlow.
  replace (float64.ilog2 v) with (e + 52) in Hlow by (unfold e; lia).
  pose proof (pow2_shift (e + 52) (- e) ltac:(lia) ltac:(lia)) as Hs52.
  replace (e + 52 + - e) with 52 in Hs52 by lia. fold M in Hs52.
  assert (H1 : Qle (inject_Z 1) (v * inject_Z M)).
  { apply Qle_trans with (inject_Z (2 ^ 52)).
    - now rewrite <- Zle_Qle.
    - rewrite <- Hs52.
      apply Qmult_le_compat_r; [exact Hlow | now apply Qlt_le_weak]. }
  assert (HR : 1 <= R) by (apply rint_ge; now rewrite Hq).
  pose proof (rint_upper (v / float64.pow2 e)) as Hup. fold R in Hup.
  rewrite Hq in Hup.
  split.
  - apply Qlt_le_trans with (inject_Z 1 * float64.pow2 e)%Q.
    + change (inject_Z 1) with 1%Q. now rewrite Qmult_1_l.
    + apply Qmult_le_compat_r; [|now apply Qlt_le_weak].
      now rewrite <- Zle_Qle.
  - apply (Qmult_le_r _ _ _ HM).
    rewrite <- Qmult_assoc, Hs, Qmult_1_r.
    (* R <= v M + 1/2 <= (v + 2^-54) M  since  M >= 2^53 *)
    assert (H53 : Qle (inject_Z (2 ^ 53)) (inject_Z M)).
    { rewrite <- Zle_Qle. unfold M. apply Z.pow_le_mono_r; lia. }
    change (inject_Z (2 ^ 53)) with (9007199254740992 # 1)%Q in H53.
    change (1 # 2 ^ 54)%Q with (1 # 18014398509481984)%Q.
    lra.
Qed.

Lemma to_int_between (x : float64.t) (k : Z) :
  0 <= k -> Qle (inject_Z k) x -> Qlt x (inject_Z k + 1) ->
  float64.to_int x = k.
Proof.
  intros Hk Hlo Hhi. apply Z.le_antisymm; [|now apply to_int_ge].
  unfold float64.to_int, Qle, Qlt in *.
  destruct x as [n d]; simpl in *.
  rewrite Z.quot_div_nonneg by nia.
  apply Z.lt_succ_r. apply Z.div_lt_upper_bound; lia.
Qed.

(** Below 2^24 seconds the float conversion followed by [int] gives the
    whole seconds of the duration, whatever its nanoseconds. *)
Lemma to_int_Seconds (d : Z) :
  0 <= d < 2 ^ 24 * time.Second ->
  float64.to_int (time.Seconds d) = Z.quot d time.Second.
Proof.
  intros Hd. unfold time.Second in *.
  set (sec := Z.quot d 1000000000).
  set (nsec := Z.rem d 1000000000).
  assert (Hsec : 0 <= sec < 2 ^ 24).
  { unfold sec. rewrite Z.quot_div_nonneg by lia. split.
    - apply Z.div_pos; lia.
    - apply Z.div_lt_upper_bound; lia. }
  assert (Hnsec : 0 <= nsec < 1000000000).
  { unfold nsec. rewrite Z.rem_mod_nonneg by lia.
    apply Z.mod_pos_bound. lia. }
  destruct (Z.eq_dec nsec 0) as [E0 | Hn0].
  - assert (Ed : d = sec * time.Second).
    { pose proof (Z.quot_rem' d 1000000000) as H. fold sec nsec in H.
      unfold time.Second. lia. }
    rewrite Ed at 1. apply to_int_Seconds_whole.
    unfold fits_duration. lia.
  - unfold time.Seconds, time.Second. fold sec nsec.
    unfold float64.of_int, float64.add, float64.div.
    rewrite (round_inject sec) by lia.
    rewrite (round_inject nsec) by lia.
    set (v := (inject_Z nsec / inject_Z 1000000000)%Q).
    assert (Hv : Qlt 0 v /\ Qle v (1 - (1 # 1000000000))).
    { unfold v. split.
      - apply Qlt_shift_div_l; [reflexivity|]. rewrite Qmult_0_l.
        unfold Qlt. simpl. lia.
      - apply Qle_shift_div_r; [reflexivity|].
        change ((1 - (1 # 1000000000)) * inject_Z 1000000000)%Q
          with ((1 - (1 # 1000000000)) * (1000000000 # 1))%Q.
        setoid_replace ((1 - (1 # 1000000000)) * (1000000000 # 1))%Q
          with (inject_Z 999999999) by reflexivity.
        rewrite <- Zle_Qle. lia. }
    destruct Hv as [Hv0 Hv1].
    destruct (round_fraction v Hv0 ltac:(lra)) as [Hy0 Hy1].
    set (y := float64.round v) in *.
    change (1 # 2 ^ 54)%Q with (1 # 18014398509481984)%Q in Hy1.
    assert (Hs0 : Qle 0 (inject_Z sec)) by (unfold Qle; simpl; lia).
    assert (Hs1 : Qle (inject_Z sec) (16777215 # 1))
      by (unfold Qle; simpl; lia).
    destruct (round_between (inject_Z sec + y) sec 24
                ((1 # 1000000000) - (1 # 18014398509481984)))
      as [Hlo Hhi].
    + lra.
    + lia.
    + lia.
    + change (float64.pow2 24) with (16777216 # 1)%Q. lra.
    + lra.
    + lra.
    + now vm_compute.
    + apply to_int_between; [lia | exact Hlo | exact Hhi].
Qed.

End SecondsRange.

Section PlainSeconds.

Open Scope Z_scope.

(** Rounding keeps the sign: what is not positive stays so. *)
Lemma round_nonpos (q : Q) : Qle q 0 -> Qle (float64.round q) 0.
Proof.
  intros H. destruct (Qeq_dec q 0) as [E | E].
  - unfold float64.round. apply Qeq_bool_iff in E. rewrite E. apply Qle_refl.
  - rewrite (round_nonzero q E).
    set (e := float64.ilog2 q - 52).
    pose proof (pow2_pos e) as Hp.
    pose proof (rint_upper (q / float64.pow2 e)) as Hup.
    assert (Hq : Qle (q / float64.pow2 e) 0).
    { apply Qle_shift_div_r; [exact Hp|]. now rewrite Qmult_0_l. }
    assert (HR : float64.rint (q / float64.pow2 e) <= 0).
    { apply Z.lt_succ_r. rewrite Zlt_Qlt.
      eapply Qle_lt_trans; [exact Hup|]. change (inject_Z (Z.succ 0)) with 1%Q. lra. }
    rewrite Zle_Qle in HR. change (inject_Z 0) with 0%Q in HR.
    setoid_replace 0%Q with (0 * float64.pow2 e)%Q by (now rewrite Qmult_0_l).
    apply Qmult_le_compat_r; [exact HR | now apply Qlt_le_weak].
Qed.

Lemma quot_Second_nonpos (d : Z) : d <= 0 -> Z.quot d time.Second <= 0.
Proof.
  intros Hd. unfold time.Second.
  pose proof (Z.quot_opp_l d 1000000000 ltac:(lia)) as E.
  pose proof (Z.quot_pos (- d) 1000000000 ltac:(lia) ltac:(lia)). lia.
Qed.

Lemma Seconds_nonpos (d : Z) : d <= 0 -> Qle (time.Seconds d) 0.
Proof.
  intros Hd. unfold time.Seconds, float64.add, float64.div, float64.of_int.
  pose proof (quot_Second_nonpos d Hd) as Hs.
  assert (Hn : Z.rem d time.Second <= 0)
    by (apply Z.rem_nonpos; unfold time.Second; lia).
  apply round_nonpos.
  assert (H1 : Qle (float64.round (inject_Z (Z.quot d time.Second))) 0).
  { apply round_nonpos. rewrite Zle_Qle in Hs. exact Hs. }
  assert (H2 : Qle (float64.round
                      (float64.round (inject_Z (Z.rem d time.Second))
                       / inject_Z 1000000000)) 0).
  { apply round_nonpos. apply Qle_shift_div_r; [reflexivity|].
    rewrite Qmult_0_l. apply round_nonpos. rewrite Zle_Qle in Hn. exact Hn. }
  lra.
Qed.

(** Where the payload of a Vercel create has the whole seconds of the
    caller's TTL, floored at 60. *)
Lemma vercel_ttl_plain (d : Z) :
  d < 2 ^ 24 * time.Second \/ whole_seconds d ->
  float64.to_int (math.Max (time.Seconds d) (inject_Z 60))
  = Z.max (Z.quot d time.Second) 60.
Proof.
  rewrite to_int_Max_60. intros [H | (s & Hs & ->)].
  - destruct (Z.le_gt_cases 0 d) as [H0 | H0].
    + now rewrite to_int_Seconds by lia.
    + pose proof (to_int_le _ 0 ltac:(lia) (Seconds_nonpos d ltac:(lia))).
      pose proof (quot_Second_nonpos d ltac:(lia)). lia.
  - rewrite to_int_Seconds_whole by exact Hs.
    now rewrite Z.quot_mul by (unfold time.Second; lia).
Qed.

Lemma hetzner_ttl_plain (d : Z) :
  0 <= d < 2 ^ 24 * time.Second \/ whole_seconds d ->
  float64.to_int (time.Seconds d) = Z.quot d time.Second.
Proof.
  intros [H | (s & Hs & ->)].
  - now apply to_int_Seconds.
  - rewrite to_int_Seconds_whole by exact Hs.
    now rewrite Z.quot_mul by (unfold time.Second; lia).
Qed.

End PlainSeconds.

(** Past that range the sum of the two floats can round up to the next
    second: 16777216.999999999 seconds become 16777217. *)
Example Seconds_rounds_up :
  float64.to_int (time.Seconds 16777216999999999%Z) = 16777217%Z.
Proof. now vm_compute. Qed.

(** * Running the clients *)

(** One step of symbolic execution: split on the next scrutinee. *)
Ltac run_step :=
  match goal with
  | |- context [match ?x with _ => _ end] =>
      first [ is_var x; destruct x | destruct x eqn:? ]
  | H : context [match ?x with _ => _ end] |- _ =>
      first [ is_var x; destruct x | destruct x eqn:? ]
  end.

Ltac run_inv :=
  repeat match goal with
         | H : _ = _ |- _ =>
             first [ discriminate H
                   | progress (injection H as; subst) ]
         end.

Ltac run := repeat run_step; run_inv.

Section VercelRuns.

Context (W : World) (J : Vercel.JSON).

(** The Vercel client checks every error of
    [http.NewRequestWithContext], so its functions always return. *)
Lemma vercel_deleteRecord_returns ctx zone token r log :
  exists err log1,
    Vercel.deleteRecord W ctx zone token r log = (Returned err, log1) /\
    (log1 = log \/
     exists q, log1 = (log ++ [q])%list /\ http.Method q = "DELETE").
Proof.
  unfold Vercel.deleteRecord, Vercel.doRequest, NewRequestWithContext,
    bind, client_Do, ret.
  run; do 2 eexists; (split; [reflexivity|]); eauto.
Qed.

Lemma vercel_createRecord_returns ctx token zone r log :
  exists res log1,
    Vercel.createRecord W J ctx token zone r log = (Returned res, log1) /\
    (snd res <> None -> fst res = libdns.zero) /\
    (log1 = log \/
     exists q, log1 = (log ++ [q])%list /\ http.Method q = "POST").
Proof.
  unfold Vercel.createRecord, Vercel.doRequest, NewRequestWithContext,
    bind, client_Do, ret.
  run; do 2 eexists; (split; [reflexivity|]); simpl; split; eauto; congruence.
Qed.

End VercelRuns.

Section VercelClaims.

Context (W : World) (J : Vercel.JSON).

(** What a successful [createRecord] has done and what it returns. *)
Lemma vercel_createRecord_success ctx token zone r log rec log1 :
  Vercel.createRecord W J ctx token zone r log
  = (Returned (rec, None), log1) ->
  exists q response data result,
    log1 = (log ++ [q])%list /\ http.Method q = "POST" /\
    transport W log q = inl response /\
    http.ReadAll response = (data, None) /\
    Vercel.Unmarshal_createRecordResponse J data = inl result /\
    rec = {| libdns.ID := Vercel.Uid result;
             libdns.Type_ := libdns.Type_ r;
             libdns.Name := Vercel.normalizeRecordName (libdns.Name r) zone;
             libdns.Value := libdns.Value r;
             libdns.TTL := 0%Z |}.
Proof.
  unfold Vercel.createRecord, Vercel.doRequest, NewRequestWithContext,
    bind, client_Do, ret.
  intros H. run. do 4 eexists. repeat split; eassumption.
Qed.

(** [updateRecord] is [deleteRecord] followed, when it reports no error,
    by [createRecord]. *)
Lemma vercel_updateRecord_unfold ctx token zone r log :
  Vercel.updateRecord W J ctx token zone r log =
  match Vercel.deleteRecord W ctx zone token r log with
  | (Returned (Some err), log1) => (Returned (libdns.zero, Some err), log1)
  | (Returned None, log1) => Vercel.createRecord W J ctx token zone r log1
  | (Panicked fault, log1) => (Panicked fault, log1)
  end.
Proof.
  unfold Vercel.updateRecord, bind, ret.
  destruct (Vercel.deleteRecord W ctx zone token r log) as [[[e|]|f] log1];
    try reflexivity.
  destruct (vercel_createRecord_returns W J ctx token zone r log1)
    as ([rec err] & log2 & E & Hz & _).
  rewrite E. destruct err as [e|]; [|reflexivity].
  simpl in Hz. now rewrite Hz.
Qed.

(** C10. A successful Vercel [createRecord] returns the input with the
    identifier of the response: the record is made of the decoded [uid],
    the input's type and value, the normalised input name and a zero TTL.
    The decoded response has no other field, so nothing else of the
    provider's answer can reach the result.  The same holds for whatever
    [createOrUpdateRecord] returns on success, on its create and on its
    delete-then-create path. *)
Theorem vercel_create_result ctx token zone r log rec log1 :
  (Vercel.createRecord W J ctx token zone r log
   = (Returned (rec, None), log1) ->
   exists q response data result,
     log1 = (log ++ [q])%list /\ http.Method q = "POST" /\
     transport W log q = inl response /\
     http.ReadAll response = (data, None) /\
     Vercel.Unmarshal_createRecordResponse J data = inl result /\
     rec = {| libdns.ID := Vercel.Uid result;
              libdns.Type_ := libdns.Type_ r;
              libdns.Name := Vercel.normalizeRecordName (libdns.Name r) zone;
              libdns.Value := libdns.Value r;
              libdns.TTL := 0%Z |}) /\
  (Vercel.createOrUpdateRecord W J ctx token zone r log
   = (Returned (rec, None), log1) ->
   exists uid,
     rec = {| libdns.ID := uid;
              libdns.Type_ := libdns.Type_ r;
              libdns.Name := Vercel.normalizeRecordName (libdns.Name r) zone;
              libdns.Value := libdns.Value r;
              libdns.TTL := 0%Z |}).
Proof.
  split; [apply vercel_createRecord_success|].
  unfold Vercel.createOrUpdateRecord.
  destruct (String.length (libdns.ID r) =? 0)%nat.
  - intros H. apply vercel_createRecord_success in H
      as (_ & _ & _ & result & _ & _ & _ & _ & _ & ->). now eexists.
  - rewrite vercel_updateRecord_unfold.
    destruct (Vercel.deleteRecord W ctx zone token r log)
      as [[[e|]|f] log0]; try discriminate.
    intros H. apply vercel_createRecord_success in H
      as (_ & _ & _ & result & _ & _ & _ & _ & _ & ->). now eexists.
Qed.

(** What [deleteRecord] has sent when it returns: at most the DELETE
    request, and exactly that request when it reports no error. *)
Lemma vercel_deleteRecord_cases ctx zone token r log err log1 :
  Vercel.deleteRecord W ctx zone token r log = (Returned err, log1) ->
  match err with
  | Some _ =>
      log1 = log \/
      exists q, log1 = (log ++ [q])%list /\ http.Method q = "DELETE"
  | None => exists q, log1 = (log ++ [q])%list /\ http.Method q = "DELETE"
  end.
Proof.
  unfold Vercel.deleteRecord, Vercel.doRequest, NewRequestWithContext,
    bind, client_Do, ret.
  intros H. run; eauto.
Qed.

(** C7. In the Vercel update path, when the delete step returns an error
    [updateRecord] returns the zero record with that error and the log is
    the one the delete step left, with no create request in it; when the
    delete step succeeds, [updateRecord] is exactly one [createRecord] run
    after the DELETE request, which sends at most one request, a POST. *)
Theorem vercel_update_delete_then_create ctx token zone r log :
  (forall err log1,
     Vercel.deleteRecord W ctx zone token r log
     = (Returned (Some err), log1) ->
     Vercel.updateRecord W J ctx token zone r log
     = (Returned (libdns.zero, Some err), log1) /\
     (log1 = log \/
      exists q, log1 = (log ++ [q])%list /\ http.Method q = "DELETE")) /\
  (forall log1,
     Vercel.deleteRecord W ctx zone token r log = (Returned None, log1) ->
     Vercel.updateRecord W J ctx token zone r log
     = Vercel.createRecord W J ctx token zone r log1 /\
     (exists q, log1 = (log ++ [q])%list /\ http.Method q = "DELETE") /\
     sends (Vercel.createRecord W J ctx token zone r) log1
       (fun sent =>
          sent = [] \/ exists q, sent = [q] /\ http.Method q = "POST")).
Proof.
  split.
  - intros err log1 H. rewrite vercel_updateRecord_unfold, H.
    split; [reflexivity|]. exact (vercel_deleteRecord_cases _ _ _ _ _ _ _ H).
  - intros log1 H. rewrite vercel_updateRecord_unfold, H.
    split; [reflexivity|].
    split; [exact (vercel_deleteRecord_cases _ _ _ _ _ _ _ H)|].
    destruct (vercel_createRecord_returns W J ctx token zone r log1)
      as (res & log2 & E & _ & [-> | (q & -> & Hq)]);
      unfold sends; rewrite E; simpl.
    + exists []. split; [now rewrite app_nil_r | now left].
    + exists [q]. split; [reflexivity | right; eauto].
Qed.

End VercelClaims.

Lemma vercel_update_delete_then_create_witness :
  (let W := Fake.world [Fake.status 404] in
   Vercel.updateRecord W Fake.vercel_json (Some 0) "token" "example.com"
     Fake.a_record []
   = (Returned (libdns.zero, Some "Not Found (404)"),
      snd (Vercel.deleteRecord W (Some 0) "example.com" "token"
             Fake.a_record []))) /\
  (let W := Fake.world [Fake.ok ""; Fake.ok "rec_2"] in
   exists log1,
     Vercel.updateRecord W Fake.vercel_json (Some 0) "token" "example.com"
       Fake.a_record []
     = Vercel.createRecord W Fake.vercel_json (Some 0) "token"
         "example.com" Fake.a_record log1 /\
     List.length log1 = 1).
Proof.
  split.
  - intros W0.
    apply (vercel_update_delete_then_create W0 Fake.vercel_json (Some 0)
             "token" "example.com" Fake.a_record []).
    reflexivity.
  - intros W0. eexists. split.
    + apply (vercel_update_delete_then_create W0 Fake.vercel_json (Some 0)
               "token" "example.com" Fake.a_record []).
      reflexivity.
    + reflexivity.
Defined.

Lemma vercel_create_result_witness :
  exists uid,
    {| libdns.ID := "rec_1"; libdns.Type_ := "TXT";
       libdns.Name := "_acme-challenge"; libdns.Value := "token";
       libdns.TTL := 0%Z |}
    = {| libdns.ID := uid;
         libdns.Type_ := libdns.Type_ Fake.a_record;
         libdns.Name :=
           Vercel.normalizeRecordName (libdns.Name Fake.a_record)
             "example.com";
         libdns.Value := libdns.Value Fake.a_record;
         libdns.TTL := 0%Z |}.
Proof.
  eapply (proj2 (vercel_create_result (Fake.world [Fake.ok "rec_1"])
                  Fake.vercel_json (Some 0) "token" "example.com"
                  Fake.a_record [] _ _)).
  reflexivity.
Defined.

(** * Requests sent by a computation *)

Section Sends.

Context {A B : Type} (Q : http.Request -> Prop).

Lemma sends_ret (a : A) log : sends (ret a) log (Forall Q).
Proof. exists []. split; [symmetry; apply app_nil_r | constructor]. Qed.

Lemma sends_panic fault log : sends (@panic A fault) log (Forall Q).
Proof. exists []. split; [symmetry; apply app_nil_r | constructor]. Qed.

Lemma sends_bind (m : IO A) (k : A -> IO B) log :
  sends m log (Forall Q) ->
  (forall a log1, sends (k a) log1 (Forall Q)) ->
  sends (bind m k) log (Forall Q).
Proof.
  unfold sends, bind. intros (s1 & E1 & F1) Hk.
  destruct (m log) as [[a | fault] log1]; simpl in E1; subst log1.
  - destruct (Hk a (log ++ s1)%list) as (s2 & E2 & F2).
    exists (s1 ++ s2)%list. rewrite E2, app_assoc.
    split; [reflexivity | now apply Forall_app].
  - now exists s1.
Qed.

Lemma sends_weaken (Q' : http.Request -> Prop) (m : IO A) log :
  (forall q, Q q -> Q' q) ->
  sends m log (Forall Q) -> sends m log (Forall Q').
Proof.
  intros HQ (s & E & F). exists s. split; [exact E|].
  eapply Forall_impl; eassumption.
Qed.

End Sends.

Lemma NewRequestWithContext_fields W ctx method url body req err :
  NewRequestWithContext W ctx method url body = (Some req, err) ->
  http.Method req = method /\ http.URL req = url /\ http.Body req = body.
Proof.
  unfold NewRequestWithContext. intros H. run. now simpl.
Qed.

Section HetznerRuns.

Context (W : World) (J : Hetzner.JSON).

Lemma hetzner_doRequest_cases token req log :
  match req with
  | None =>
      Hetzner.doRequest W token req log = (Panicked nil_dereference, log)
  | Some r =>
      exists res q,
        Hetzner.doRequest W token req log
        = (Returned res, (log ++ [q])%list) /\
        http.Method q = http.Method r /\ http.URL q = http.URL r /\
        http.Body q = http.Body r
  end.
Proof.
  destruct req as [r|]; [|reflexivity].
  unfold Hetzner.doRequest, bind, client_Do, ret.
  run; do 2 eexists; repeat split; reflexivity.
Qed.

(** Every request [doRequest] sends is the one it was given, headers
    apart. *)
Lemma hetzner_doRequest_sends (Q : http.Request -> Prop) token req log :
  (forall r q, req = Some r -> http.Method q = http.Method r ->
               http.URL q = http.URL r -> http.Body q = http.Body r ->
               Q q) ->
  sends (Hetzner.doRequest W token req) log (Forall Q).
Proof.
  intros HQ. pose proof (hetzner_doRequest_cases token req log) as H.
  destruct req as [r|].
  - destruct H as (res & q & E & Hm & Hu & Hb).
    exists [q]. rewrite E. split; [reflexivity|].
    constructor; [|constructor]. now apply (HQ r).
  - exists []. rewrite H. split; [symmetry; apply app_nil_r | constructor].
Qed.

Lemma hetzner_built_request_sends (Q : http.Request -> Prop)
    ctx token method url body log :
  (forall q, http.Method q = method -> http.Body q = body -> Q q) ->
  sends
    (Hetzner.doRequest W token
       (fst (NewRequestWithContext W ctx method url body)))
    log (Forall Q).
Proof.
  intros HQ. apply hetzner_doRequest_sends. intros r q Hr Hm _ Hb.
  destruct (NewRequestWithContext W ctx method url body) as [req err] eqn:E.
  simpl in Hr. subst req.
  apply NewRequestWithContext_fields in E as (Em & _ & Eb).
  apply HQ; congruence.
Qed.

Lemma let_pair_fst {X Y Z : Type} (p : X * Y) (k : X -> Z) :
  (let '(x, _) := p in k x) = k (fst p).
Proof. now destruct p. Qed.

Lemma hetzner_getZoneData_sends ctx token name log :
  sends (Hetzner.getZoneData W J ctx token name) log
    (Forall (fun q => http.Method q = "GET" /\ http.Body q = None)).
Proof.
  unfold Hetzner.getZoneData. rewrite let_pair_fst.
  apply sends_bind.
  - apply hetzner_built_request_sends. auto.
  - intros [data err] log1.
    repeat run_step; first [apply sends_ret | apply sends_panic].
Qed.

(** [getZoneData] after a zone listing that decoded to [result]. *)
Lemma hetzner_getZoneData_listing ctx token name log log1 result :
  zone_listing W J ctx token name log log1 result ->
  Hetzner.getZoneData W J ctx token name log =
  match Hetzner.Zones result with
  | [] => (Panicked index_out_of_range_0, log1)
  | [z] => (Returned (z, None), log1)
  | _ :: _ :: _ =>
      (Returned (Hetzner.zone.zero, Some (errors.New "zone is ambiguous")),
       log1)
  end.
Proof.
  intros (data & Hd & Hu).
  unfold Hetzner.getZoneData. rewrite let_pair_fst.
  unfold bind. rewrite Hd, Hu.
  destruct (Hetzner.Zones result) as [|z [|z' zs]]; reflexivity.
Qed.

Lemma zone_listing_sent ctx token name log log1 result :
  zone_listing W J ctx token name log log1 result ->
  exists q, log1 = (log ++ [q])%list /\ http.Method q = "GET".
Proof.
  intros (data & Hd & _).
  pose proof (hetzner_doRequest_cases token
    (fst (NewRequestWithContext W ctx "GET"
            ("https://dns.hetzner.com/api/v1/zones?name="
             ++ QueryEscape W name) None)) log) as H.
  destruct (NewRequestWithContext W ctx "GET"
              ("https://dns.hetzner.com/api/v1/zones?name="
               ++ QueryEscape W name) None) as [[r|] err] eqn:E;
    simpl in *.
  - destruct H as (res & q & Eq & Hm & _).
    apply NewRequestWithContext_fields in E as (Em & _).
    rewrite Hd in Eq. injection Eq as _ ->. exists q. split; congruence.
  - rewrite Hd in H. discriminate.
Qed.

End HetznerRuns.

Section Durations.

Open Scope Z_scope.

Lemma wrap64_small (z : Z) : - 2 ^ 63 <= z < 2 ^ 63 -> wrap64 z = z.
Proof. intros H. unfold wrap64. rewrite Z.mod_small; lia. Qed.

Lemma wrap64_range (z : Z) : - 2 ^ 63 <= wrap64 z < 2 ^ 63.
Proof.
  unfold wrap64.
  pose proof (Z.mod_pos_bound (z + 2 ^ 63) (2 ^ 64) ltac:(lia)). lia.
Qed.

(** Multiplying a second count by [time.Second] is exact precisely when
    the count fits. *)
Lemma time_mul_Second (ttl : Z) :
  time.mul ttl time.Second = ttl * time.Second <-> fits_duration ttl.
Proof.
  unfold time.mul, time.Second, fits_duration. split.
  - intros H. pose proof (wrap64_range (ttl * 1000000000)).
    rewrite H in *. lia.
  - intros H. apply wrap64_small. lia.
Qed.

End Durations.

Lemma fold_left_append_map {X Y : Type} (f : X -> Y) (l : list X)
    (acc : list Y) :
  fold_left (fun acc x => (acc ++ [f x])%list) l acc = (acc ++ map f l)%list.
Proof.
  revert acc; induction l as [|x l IH]; intros acc; simpl.
  - now rewrite app_nil_r.
  - rewrite IH, <- app_assoc. reflexivity.
Qed.

Section HetznerClaims.

Context (W : World) (J : Hetzner.JSON).

Lemma hetzner_createRecord_sends ctx token zone r log :
  sends (Hetzner.createRecord W J ctx token zone r) log
    (Forall (fun q =>
       http.Method q = "GET" \/
       http.Method q = "POST" /\ carries J zone r q)).
Proof.
  unfold Hetzner.createRecord. apply sends_bind.
  - eapply sends_weaken; [|apply hetzner_getZoneData_sends].
    intros q [Hq _]. now left.
  - intros [zoneData [err|]] log1; [apply sends_ret|].
    destruct (Hetzner.Marshal J _) as [b|err] eqn:Eb; [|apply sends_ret].
    rewrite let_pair_fst. apply sends_bind.
    + apply hetzner_built_request_sends. intros q Hm Hb.
      right. split; [exact Hm|]. now exists zoneData, b.
    + intros [data err] log2. repeat run_step; apply sends_ret.
Qed.

Lemma hetzner_updateRecord_sends ctx token zone r log :
  sends (Hetzner.updateRecord W J ctx token zone r) log
    (Forall (fun q =>
       http.Method q = "GET" \/
       http.Method q = "PUT" /\ carries J zone r q)).
Proof.
  unfold Hetzner.updateRecord. apply sends_bind.
  - eapply sends_weaken; [|apply hetzner_getZoneData_sends].
    intros q [Hq _]. now left.
  - intros [zoneData [err|]] log1; [apply sends_ret|].
    destruct (Hetzner.Marshal J _) as [b|err] eqn:Eb; [|apply sends_ret].
    rewrite let_pair_fst. apply sends_bind.
    + apply hetzner_built_request_sends. intros q Hm Hb.
      right. split; [exact Hm|]. now exists zoneData, b.
    + intros [data err] log2. repeat run_step; apply sends_ret.
Qed.

Lemma inbound_fold (zoneData : Hetzner.zone.t)
    (wires : list Hetzner.record.t) :
  Forall2 (inbound zoneData) wires
    (fold_left
       (fun records r =>
          let rec :=
            {| libdns.ID := Hetzner.record.ID r;
               libdns.Type_ := Hetzner.record.Type_ r;
               libdns.Name := Hetzner.record.Name r;
               libdns.Value := Hetzner.record.Value r;
               libdns.TTL := 0%Z |} in
          let rec :=
            match Hetzner.record.TTL r with
            | Some ttl => libdns.set_TTL rec (time.mul ttl time.Second)
            | None =>
                libdns.set_TTL rec
                  (time.mul (Hetzner.zone.TTL zoneData) time.Second)
            end in
          (records ++ [rec])%list)
       wires []).
Proof.
  rewrite (fold_left_append_map
             (fun r =>
                match Hetzner.record.TTL r with
                | Some ttl => _
                | None => _
                end)).
  simpl. induction wires as [|w ws IH]; constructor; [|exact IH].
  unfold inbound.
  destruct (Hetzner.record.TTL w) as [ttl|]; simpl;
    repeat split; try reflexivity; apply time_mul_Second.
Qed.

(** C8. When the zone listing decodes to two or more zones, [getZoneData]
    returns the zero zone with the error "zone is ambiguous", having sent
    the listing request and nothing else; [getAllRecords], [createRecord],
    [updateRecord] and [createOrUpdateRecord] return that error with the
    same log, so none of them makes a further call. *)
Theorem hetzner_ambiguous_zone ctx token name log log1 result :
  zone_listing W J ctx token name log log1 result ->
  2 <= List.length (Hetzner.Zones result) ->
  let ambiguous := Some (errors.New "zone is ambiguous") in
  Hetzner.getZoneData W J ctx token name log
  = (Returned (Hetzner.zone.zero, ambiguous), log1) /\
  (exists q, log1 = (log ++ [q])%list /\ http.Method q = "GET") /\
  Hetzner.getAllRecords W J ctx token name log
  = (Returned ([], ambiguous), log1) /\
  forall r,
    Hetzner.createRecord W J ctx token name r log
    = (Returned (libdns.zero, ambiguous), log1) /\
    Hetzner.updateRecord W J ctx token name r log
    = (Returned (libdns.zero, ambiguous), log1) /\
    Hetzner.createOrUpdateRecord W J ctx token name r log
    = (Returned (libdns.zero, ambiguous), log1).
Proof.
  intros Hl Hn ambiguous.
  assert (E : Hetzner.getZoneData W J ctx token name log
              = (Returned (Hetzner.zone.zero, ambiguous), log1)).
  { rewrite (hetzner_getZoneData_listing W J _ _ _ _ _ _ Hl).
    destruct (Hetzner.Zones result) as [|z [|z' zs]]; simpl in Hn;
      [lia | lia | reflexivity]. }
  split; [exact E|].
  split; [exact (zone_listing_sent W J _ _ _ _ _ _ Hl)|].
  split; [unfold Hetzner.getAllRecords, bind; now rewrite E|].
  intros r.
  assert (Ec : Hetzner.createRecord W J ctx token name r log
               = (Returned (libdns.zero, ambiguous), log1))
    by (unfold Hetzner.createRecord, bind; now rewrite E).
  assert (Eu : Hetzner.updateRecord W J ctx token name r log
               = (Returned (libdns.zero, ambiguous), log1))
    by (unfold Hetzner.updateRecord, bind; now rewrite E).
  repeat split; try assumption.
  unfold Hetzner.createOrUpdateRecord.
  now destruct (String.length (libdns.ID r) =? 0)%nat.
Qed.

(** C9. When the zone listing decodes to no zone at all, [getZoneData]
    reads index 0 of the empty list: the run stops with the run-time fault
    "index out of range [0] with length 0" and returns no value, so no
    error value reaches the caller. *)
Theorem hetzner_no_zone_faults ctx token name log log1 result :
  zone_listing W J ctx token name log log1 result ->
  Hetzner.Zones result = [] ->
  Hetzner.getZoneData W J ctx token name log
  = (Panicked index_out_of_range_0, log1) /\
  forall z err log2,
    Hetzner.getZoneData W J ctx token name log
    <> (Returned (z, err), log2).
Proof.
  intros Hl Hz.
  rewrite (hetzner_getZoneData_listing W J _ _ _ _ _ _ Hl), Hz.
  split; [reflexivity | discriminate].
Qed.

End HetznerClaims.

Lemma fake_zone_listing (zones : list Hetzner.zone.t)
    (records : list Hetzner.record.t) :
  let W := Fake.world [Fake.ok "zones"] in
  let J := Fake.hetzner_json zones records in
  exists log1,
    zone_listing W J (Some 0) "token" "example.com" [] log1
      {| Hetzner.Zones := zones |} /\
    List.length log1 = 1.
Proof.
  intros W0 J0. eexists. split.
  - exists "zones". split; [|reflexivity]. subst W0 J0. cbv. reflexivity.
  - reflexivity.
Qed.

Lemma hetzner_ambiguous_zone_witness :
  let W := Fake.world [Fake.ok "zones"] in
  let J := Fake.hetzner_json [Fake.a_zone; Fake.a_zone] [] in
  exists log1,
    List.length log1 = 1 /\
    Hetzner.createOrUpdateRecord W J (Some 0) "token" "example.com"
      Fake.a_record []
    = (Returned (libdns.zero, Some "zone is ambiguous"), log1).
Proof.
  intros W0 J0.
  destruct (fake_zone_listing [Fake.a_zone; Fake.a_zone] [])
    as (log1 & Hl & Hn).
  exists log1. split; [exact Hn|].
  apply (hetzner_ambiguous_zone W0 J0 (Some 0) "token" "example.com" []
           log1 _ Hl).
  simpl. lia.
Defined.

Lemma hetzner_no_zone_faults_witness :
  let W := Fake.world [Fake.ok "zones"] in
  let J := Fake.hetzner_json [] [] in
  exists log1,
    Hetzner.getZoneData W J (Some 0) "token" "example.com" []
    = (Panicked "index out of range [0] with length 0", log1).
Proof.
  intros W0 J0.
  destruct (fake_zone_listing [] []) as (log1 & Hl & Hn).
  exists log1.
  apply (hetzner_no_zone_faults W0 J0 (Some 0) "token" "example.com" []
           log1 _ Hl).
  reflexivity.
Defined.

Section Upsert.

Context (W : World) (JV : Vercel.JSON) (JH : Hetzner.JSON).

Lemma length_zero_iff (s : string) : (String.length s =? 0)%nat = true <-> s = "".
Proof.
  destruct s; simpl; split; intros H; try reflexivity; discriminate.
Qed.

(** C6. [createOrUpdateRecord] of either provider looks at the identifier
    only.  With an empty [ID] it is [createRecord], and every request it
    sends is a POST (or, for Hetzner, the GET of the zone lookup), never a
    PUT or a DELETE; with a non-empty [ID] it is [updateRecord]. *)
Theorem upsert_dispatch ctx token zone r :
  (libdns.ID r = "" ->
   Vercel.createOrUpdateRecord W JV ctx token zone r
   = Vercel.createRecord W JV ctx token zone r /\
   Hetzner.createOrUpdateRecord W JH ctx token zone r
   = Hetzner.createRecord W JH ctx token zone r /\
   forall log,
     sends (Vercel.createOrUpdateRecord W JV ctx token zone r) log
       (Forall (fun q =>
          http.Method q = "POST" /\
          http.Method q <> "PUT" /\ http.Method q <> "DELETE")) /\
     sends (Hetzner.createOrUpdateRecord W JH ctx token zone r) log
       (Forall (fun q =>
          (http.Method q = "GET" \/ http.Method q = "POST") /\
          http.Method q <> "PUT" /\ http.Method q <> "DELETE"))) /\
  (libdns.ID r <> "" ->
   Vercel.createOrUpdateRecord W JV ctx token zone r
   = Vercel.updateRecord W JV ctx token zone r /\
   Hetzner.createOrUpdateRecord W JH ctx token zone r
   = Hetzner.updateRecord W JH ctx token zone r).
Proof.
  unfold Vercel.createOrUpdateRecord, Hetzner.createOrUpdateRecord.
  split; intros H.
  - apply length_zero_iff in H. rewrite H.
    split; [reflexivity|]. split; [reflexivity|]. intros log. split.
    + destruct (vercel_createRecord_returns W JV ctx token zone r log)
        as (res & log1 & E & _ & [-> | (q & -> & Hq)]);
        unfold sends; rewrite E; simpl.
      * exists []. split; [now rewrite app_nil_r | constructor].
      * exists [q]. split; [reflexivity|].
        constructor; [|constructor]. rewrite Hq.
        repeat split; discriminate.
    + eapply sends_weaken; [|apply hetzner_createRecord_sends].
      intros q [Hq | [Hq _]]; rewrite Hq;
        (split; [auto | split; discriminate]).
  - destruct (String.length (libdns.ID r) =? 0)%nat eqn:E.
    + apply length_zero_iff in E. contradiction.
    + split; reflexivity.
Qed.

End Upsert.

Lemma upsert_dispatch_witness :
  let W := Fake.world [Fake.ok "rec_1"] in
  let J := Fake.hetzner_json [Fake.a_zone] [] in
  Vercel.createOrUpdateRecord W Fake.vercel_json (Some 0) "token"
    "example.com" Fake.a_record
  = Vercel.createRecord W Fake.vercel_json (Some 0) "token"
      "example.com" Fake.a_record /\
  Hetzner.createOrUpdateRecord W J (Some 0) "token" "example.com"
    (libdns.set_ID Fake.a_record "r1")
  = Hetzner.updateRecord W J (Some 0) "token" "example.com"
      (libdns.set_ID Fake.a_record "r1").
Proof.
  intros W0 J0. split.
  - apply (upsert_dispatch W0 Fake.vercel_json J0 (Some 0) "token"
             "example.com" Fake.a_record). reflexivity.
  - apply (upsert_dispatch W0 Fake.vercel_json J0 (Some 0) "token"
             "example.com" (libdns.set_ID Fake.a_record "r1")).
    discriminate.
Defined.

(** * Further properties of the two clients *)

(** Closes an equivalence between "no error" and "an answer in the 2xx
    range whose body was read", once the run has been split into cases. *)
Ltac answer_leaf :=
  split;
  [ first [ discriminate
          | intros _; eexists;
            (split; [reflexivity | split; [eassumption|]]);
            first [ reflexivity
                  | match goal with
                    | Er : http.ReadAll _ = _ |- _ => now rewrite Er
                    end ] ]
  | first [ reflexivity
          | intros (resp & Ht & H2 & Hr);
            first [ discriminate Ht
                  | injection Ht as <-;
                    first [ contradiction
                          | match goal with
                            | Er : http.ReadAll _ = _ |- _ =>
                                rewrite Er in Hr; simpl in Hr; congruence
                            end ] ] ] ].

Section Transport.

Context (W : World).

Lemma is_2xx_test (code : Z) :
  ((code <? 200) || (300 <=? code))%Z = false <-> is_2xx code.
Proof.
  unfold is_2xx. rewrite orb_false_iff, Z.ltb_ge, Z.leb_gt. lia.
Qed.

Lemma vercel_doRequest_answer (token : string) (req : http.Request)
    (log : list http.Request) :
  exists data err,
    Vercel.doRequest W token (Some req) log
    = (Returned (data, err), (log ++ [vercel_sent token req])%list) /\
    (err = None <->
     exists response,
       transport W log (vercel_sent token req) = inl response /\
       is_2xx (http.StatusCode response) /\
       http.ReadAll response = (data, None)).
Proof.
  unfold Vercel.doRequest, bind, client_Do, ret. fold (vercel_sent token req).
  destruct (transport W log (vercel_sent token req)) as [response | e].
  - destruct ((http.StatusCode response <? 200)
              || (300 <=? http.StatusCode response))%Z eqn:E.
    + assert (Hn : ~ is_2xx (http.StatusCode response))
        by (intros H; apply is_2xx_test in H; congruence).
      destruct (http.ReadAll response) as [data e'].
      do 2 eexists. split; [reflexivity | answer_leaf].
    + apply is_2xx_test in E.
      destruct (http.ReadAll response) as [data [e'|]] eqn:Er;
        (do 2 eexists; split; [reflexivity | answer_leaf]).
  - do 2 eexists. split; [reflexivity | answer_leaf].
Qed.

Lemma hetzner_doRequest_answer (token : string) (req : http.Request)
    (log : list http.Request) :
  exists data err,
    Hetzner.doRequest W token (Some req) log
    = (Returned (data, err), (log ++ [hetzner_sent token req])%list) /\
    (err = None <->
     exists response,
       transport W log (hetzner_sent token req) = inl response /\
       is_2xx (http.StatusCode response) /\
       http.ReadAll response = (data, None)).
Proof.
  unfold Hetzner.doRequest, bind, client_Do, ret.
  fold (hetzner_sent token req).
  destruct (transport W log (hetzner_sent token req)) as [response | e].
  - destruct ((http.StatusCode response <? 200)
              || (300 <=? http.StatusCode response))%Z eqn:E.
    + assert (Hn : ~ is_2xx (http.StatusCode response))
        by (intros H; apply is_2xx_test in H; congruence).
      do 2 eexists. split; [reflexivity | answer_leaf].
    + apply is_2xx_test in E.
      destruct (http.ReadAll response) as [data [e'|]] eqn:Er;
        (do 2 eexists; split; [reflexivity | answer_leaf]).
  - do 2 eexists. split; [reflexivity | answer_leaf].
Qed.

(** X1. The Vercel [doRequest] hands the transport the request it was
    given with the bearer and content-type headers added, once.  It
    reports no error exactly when the answer has a status in [200, 300)
    and its body could be read, and then returns that body; on any other
    status it returns the body read together with the status error. *)
Theorem vercel_doRequest_outcome (token : string) (req : http.Request)
    (log : list http.Request) :
  exists data err,
    Vercel.doRequest W token (Some req) log
    = (Returned (data, err), (log ++ [vercel_sent token req])%list) /\
    (err = None <->
     exists response,
       transport W log (vercel_sent token req) = inl response /\
       is_2xx (http.StatusCode response) /\
       http.ReadAll response = (data, None)) /\
    (forall response,
       transport W log (vercel_sent token req) = inl response ->
       ~ is_2xx (http.StatusCode response) ->
       data = fst (http.ReadAll response) /\
       err = Some (status_error W (http.StatusCode response))).
Proof.
  unfold Vercel.doRequest, bind, client_Do, ret. fold (vercel_sent token req).
  destruct (transport W log (vercel_sent token req)) as [response | e].
  - destruct ((http.StatusCode response <? 200)
              || (300 <=? http.StatusCode response))%Z eqn:E.
    + assert (Hn : ~ is_2xx (http.StatusCode response))
        by (intros H; apply is_2xx_test in H; congruence).
      destruct (http.ReadAll response) as [data e'] eqn:Er.
      do 2 eexists. split; [reflexivity|]. split.
      * split; [discriminate|]. intros (resp & [= <-] & H & _). contradiction.
      * intros resp [= <-] _. now rewrite Er.
    + apply is_2xx_test in E.
      destruct (http.ReadAll response) as [data [e'|]] eqn:Er.
      * do 2 eexists. split; [reflexivity|]. split.
        -- split; [discriminate|].
           intros (resp & [= <-] & _ & H). congruence.
        -- intros resp [= <-] H. contradiction.
      * do 2 eexists. split; [reflexivity|]. split.
        -- split; [|reflexivity]. intros _. now exists response.
        -- intros resp [= <-] H. contradiction.
  - do 2 eexists. split; [reflexivity|]. split.
    + split; [discriminate|]. intros (resp & H & _). discriminate.
    + intros resp H. discriminate.
Qed.

(** X2. The Hetzner [doRequest] hands the transport the request it was
    given with the token added under the key [Auth-Api-Token], the
    canonical form in which [Header.Add] stores [Auth-API-Token], once.  It
    reports no error exactly when the answer has a status in [200, 300)
    and its body could be read, and then returns that body; with an error
    it returns no data at all, the body of a refused answer included. *)
Theorem hetzner_doRequest_outcome (token : string) (req : http.Request)
    (log : list http.Request) :
  hetzner_sent token req
  = {| http.Ctx := http.Ctx req;
       http.Method := http.Method req;
       http.URL := http.URL req;
       http.Header := (http.Header req ++ [("Auth-Api-Token", token)])%list;
       http.Body := http.Body req |} /\
  exists data err,
    Hetzner.doRequest W token (Some req) log
    = (Returned (data, err), (log ++ [hetzner_sent token req])%list) /\
    (err = None <->
     exists response,
       transport W log (hetzner_sent token req) = inl response /\
       is_2xx (http.StatusCode response) /\
       http.ReadAll response = (data, None)) /\
    (err <> None -> data = "") /\
    (forall response,
       transport W log (hetzner_sent token req) = inl response ->
       ~ is_2xx (http.StatusCode response) ->
       err = Some (status_error W (http.StatusCode response))).
Proof.
  split; [reflexivity|].
  unfold Hetzner.doRequest, bind, client_Do, ret.
  fold (hetzner_sent token req).
  destruct (transport W log (hetzner_sent token req)) as [response | e].
  - destruct ((http.StatusCode response <? 200)
              || (300 <=? http.StatusCode response))%Z eqn:E.
    + assert (Hn : ~ is_2xx (http.StatusCode response))
        by (intros H; apply is_2xx_test in H; congruence).
      do 2 eexists. split; [reflexivity|].
      split; [split; [discriminate|]|split; [reflexivity|]].
      * intros (resp & [= <-] & H & _). contradiction.
      * intros resp [= <-] _. reflexivity.
    + apply is_2xx_test in E.
      destruct (http.ReadAll response) as [data [e'|]] eqn:Er;
        (do 2 eexists; split; [reflexivity|]).
      * split; [split; [discriminate|]|split; [reflexivity|]].
        -- intros (resp & [= <-] & _ & H). congruence.
        -- intros resp [= <-] H. contradiction.
      * split; [split; [|reflexivity]|split].
        -- intros _. now exists response.
        -- intros H. contradiction.
        -- intros resp [= <-] H. contradiction.
  - do 2 eexists. split; [reflexivity|].
    split; [split; [discriminate|]|split; [reflexivity|]].
    + intros (resp & H & _). discriminate.
    + intros resp H. discriminate.
Qed.

End Transport.

Section Refusals.

Context (W : World).

Lemma NewRequestWithContext_accepts c method url body :
  url_Parse W url = None ->
  NewRequestWithContext W (Some c) method url body
  = (Some (built c method url body), None).
Proof. unfold NewRequestWithContext. now intros ->. Qed.

Lemma NewRequestWithContext_refuses ctx method url body :
  ctx = None \/ url_Parse W url <> None ->
  fst (NewRequestWithContext W ctx method url body) = None.
Proof.
  unfold NewRequestWithContext. intros [-> | H]; [reflexivity|].
  destruct ctx; [|reflexivity].
  destruct (url_Parse W url); [reflexivity | contradiction].
Qed.

End Refusals.

Section HetznerRefusals.

Context (W : World) (J : Hetzner.JSON).

Lemma hetzner_getZoneData_refused ctx token name log :
  ctx = None \/ url_Parse W (zones_url W name) <> None ->
  Hetzner.getZoneData W J ctx token name log
  = (Panicked nil_dereference, log).
Proof.
  intros H. unfold Hetzner.getZoneData. rewrite let_pair_fst.
  fold (zones_url W name).
  now rewrite (NewRequestWithContext_refuses W _ _ _ _ H).
Qed.

(** X3. The Hetzner client drops the error of
    [http.NewRequestWithContext].  When the zone listing request is
    refused (a nil context, or a zone name whose URL does not parse)
    [getZoneData] and every operation that resolves the zone stop with a
    nil pointer dereference, and so does [deleteRecord] when its own
    request is refused; nothing is sent and no error value is returned. *)
Theorem hetzner_refused_request_panics ctx token zone r log :
  (ctx = None \/ url_Parse W (zones_url W zone) <> None ->
   Hetzner.getZoneData W J ctx token zone log
   = (Panicked nil_dereference, log) /\
   Hetzner.getAllRecords W J ctx token zone log
   = (Panicked nil_dereference, log) /\
   Hetzner.createRecord W J ctx token zone r log
   = (Panicked nil_dereference, log) /\
   Hetzner.updateRecord W J ctx token zone r log
   = (Panicked nil_dereference, log) /\
   Hetzner.createOrUpdateRecord W J ctx token zone r log
   = (Panicked nil_dereference, log)) /\
  (ctx = None \/
   url_Parse W ("https://dns.hetzner.com/api/v1/records/" ++ libdns.ID r)
   <> None ->
   Hetzner.deleteRecord W ctx token r log
   = (Panicked nil_dereference, log)).
Proof.
  split; intros H.
  - pose proof (hetzner_getZoneData_refused ctx token zone log H) as E.
    assert (Ec : Hetzner.createRecord W J ctx token zone r log
                 = (Panicked nil_dereference, log))
      by (unfold Hetzner.createRecord, bind; now rewrite E).
    assert (Eu : Hetzner.updateRecord W J ctx token zone r log
                 = (Panicked nil_dereference, log))
      by (unfold Hetzner.updateRecord, bind; now rewrite E).
    repeat split; try assumption.
    + unfold Hetzner.getAllRecords, bind. now rewrite E.
    + unfold Hetzner.createOrUpdateRecord.
      now destruct (String.length (libdns.ID r) =? 0)%nat.
  - unfold Hetzner.deleteRecord. rewrite let_pair_fst.
    now rewrite (NewRequestWithContext_refuses W _ _ _ _ H).
Qed.

(** X4. After a successful zone lookup the same happens with the second
    request: [getAllRecords] stops with a nil pointer dereference when the
    zone identifier the provider returned gives a URL that does not parse,
    and [updateRecord] when the record identifier does. *)
Theorem hetzner_unparsable_id_panics ctx token zone r log z log1 :
  Hetzner.getZoneData W J ctx token zone log = (Returned (z, None), log1) ->
  (url_Parse W ("https://dns.hetzner.com/api/v1/records?zone_id="
                ++ Hetzner.zone.ID z) <> None ->
   Hetzner.getAllRecords W J ctx token zone log
   = (Panicked nil_dereference, log1)) /\
  (forall b,
     Hetzner.Marshal J (outbound z zone r) = inl b ->
     url_Parse W ("https://dns.hetzner.com/api/v1/records/" ++ libdns.ID r)
     <> None ->
     Hetzner.updateRecord W J ctx token zone r log
     = (Panicked nil_dereference, log1)).
Proof.
  intros E. split.
  - intros H. unfold Hetzner.getAllRecords, bind at 1. rewrite E.
    rewrite let_pair_fst.
    rewrite (NewRequestWithContext_refuses W _ _ _ _ (or_intror H)).
    reflexivity.
  - intros b Hb H. unfold Hetzner.updateRecord, bind at 1. rewrite E.
    cbv beta iota. unfold Hetzner.ptr. unfold outbound in Hb.
    rewrite Hb, let_pair_fst.
    rewrite (NewRequestWithContext_refuses W _ _ _ _ (or_intror H)).
    reflexivity.
Qed.

(** X7. Whatever stops [getZoneData] stops the operation that called it:
    an error comes back unchanged with the zero value and a fault stays
    the fault, and in both cases the log is the one [getZoneData] left,
    so no further request is made. *)
Theorem hetzner_zone_failure_propagates ctx token zone r log log1 :
  (forall z err,
     Hetzner.getZoneData W J ctx token zone log
     = (Returned (z, Some err), log1) ->
     Hetzner.getAllRecords W J ctx token zone log
     = (Returned ([], Some err), log1) /\
     Hetzner.createRecord W J ctx token zone r log
     = (Returned (libdns.zero, Some err), log1) /\
     Hetzner.updateRecord W J ctx token zone r log
     = (Returned (libdns.zero, Some err), log1)) /\
  (forall fault,
     Hetzner.getZoneData W J ctx token zone log = (Panicked fault, log1) ->
     Hetzner.getAllRecords W J ctx token zone log = (Panicked fault, log1) /\
     Hetzner.createRecord W J ctx token zone r log = (Panicked fault, log1) /\
     Hetzner.updateRecord W J ctx token zone r log
     = (Panicked fault, log1)).
Proof.
  split; intros; unfold Hetzner.getAllRecords, Hetzner.createRecord,
    Hetzner.updateRecord, bind; rewrite H; repeat split.
Qed.

(** X8. [getZoneData] returns a zone without an error exactly when the
    zone listing decoded to one zone, and the zone returned is that one. *)
Theorem hetzner_getZoneData_success ctx token name log log1 z :
  Hetzner.getZoneData W J ctx token name log = (Returned (z, None), log1)
  <->
  exists result,
    zone_listing W J ctx token name log log1 result /\
    Hetzner.Zones result = [z].
Proof.
  split.
  - unfold Hetzner.getZoneData. rewrite let_pair_fst. unfold bind.
    destruct (Hetzner.doRequest W token _ log)
      as [[[data [err|]] | fault] log0] eqn:Ed; try discriminate.
    destruct (Hetzner.Unmarshal_getAllZonesResponse J data)
      as [result | err] eqn:Eu; try discriminate.
    destruct (Hetzner.Zones result) as [|z0 [|z1 zs]] eqn:Ez;
      simpl; try discriminate.
    unfold ret. intros [= <- <-].
    exists result. split; [|exact Ez]. now exists data.
  - intros (result & Hl & Hz).
    rewrite (hetzner_getZoneData_listing W J _ _ _ _ _ _ Hl), Hz.
    reflexivity.
Qed.

End HetznerRefusals.

Section Deletes.

Context (W : World).

(** X15. With a request that is accepted, [deleteRecord] of either client
    sends one DELETE for the record's identifier, without a body, and the
    Hetzner one does not look the zone up first.  It reports no error
    exactly when the answer has a status in [200, 300) and its body could
    be read; the body itself is dropped. *)
Theorem deleteRecord_outcome c token zone r log :
  (let url := "https://api.vercel.com/v2/domains/" ++ zone ++ "/records/"
              ++ libdns.ID r in
   let q := vercel_sent token (built c "DELETE" url None) in
   url_Parse W url = None ->
   exists err,
     Vercel.deleteRecord W (Some c) zone token r log
     = (Returned err, (log ++ [q])%list) /\
     (err = None <->
      exists response,
        transport W log q = inl response /\
        is_2xx (http.StatusCode response) /\
        snd (http.ReadAll response) = None)) /\
  (let url := "https://dns.hetzner.com/api/v1/records/" ++ libdns.ID r in
   let q := hetzner_sent token (built c "DELETE" url None) in
   url_Parse W url = None ->
   exists err,
     Hetzner.deleteRecord W (Some c) token r log
     = (Returned err, (log ++ [q])%list) /\
     (err = None <->
      exists response,
        transport W log q = inl response /\
        is_2xx (http.StatusCode response) /\
        snd (http.ReadAll response) = None)).
Proof.
  split; intros url q Hu.
  - unfold Vercel.deleteRecord. fold url.
    rewrite (NewRequestWithContext_accepts W c _ _ _ Hu).
    unfold Vercel.doRequest, bind, client_Do, ret.
    fold (vercel_sent token (built c "DELETE" url None)). fold q.
    destruct (transport W log q) as [response | e].
    + destruct ((http.StatusCode response <? 200)
                || (300 <=? http.StatusCode response))%Z eqn:E.
      * assert (Hn : ~ is_2xx (http.StatusCode response))
          by (intros H; apply is_2xx_test in H; congruence).
        destruct (http.ReadAll response) as [data e'].
        eexists. split; [reflexivity | answer_leaf].
      * apply is_2xx_test in E.
        destruct (http.ReadAll response) as [data [e'|]] eqn:Er;
          (eexists; split; [reflexivity | answer_leaf]).
    + eexists. split; [reflexivity | answer_leaf].
  - unfold Hetzner.deleteRecord. fold url. rewrite let_pair_fst.
    rewrite (NewRequestWithContext_accepts W c _ _ _ Hu).
    unfold Hetzner.doRequest, bind, client_Do, ret, fst.
    fold (hetzner_sent token (built c "DELETE" url None)). fold q.
    destruct (transport W log q) as [response | e].
    + destruct ((http.StatusCode response <? 200)
                || (300 <=? http.StatusCode response))%Z eqn:E.
      * assert (Hn : ~ is_2xx (http.StatusCode response))
          by (intros H; apply is_2xx_test in H; congruence).
        eexists. split; [reflexivity | answer_leaf].
      * apply is_2xx_test in E.
        destruct (http.ReadAll response) as [data [e'|]] eqn:Er;
          (eexists; split; [reflexivity | answer_leaf]).
    + eexists. split; [reflexivity | answer_leaf].
Qed.

End Deletes.

Section VercelMore.

Context (W : World) (J : Vercel.JSON).

Lemma vercel_getAllRecords_returns ctx token zone log :
  exists recs err log1,
    Vercel.getAllRecords W J ctx token zone log
    = (Returned (recs, err), log1) /\
    (err <> None -> recs = []).
Proof.
  unfold Vercel.getAllRecords, Vercel.doRequest, NewRequestWithContext,
    bind, client_Do, ret.
  run; do 3 eexists; (split; [reflexivity|]); congruence.
Qed.

(** X6. The Vercel client checks every error it is handed, so none of its
    five operations can stop with a run-time fault: each returns, and
    whenever it returns an error the value beside it is the zero value
    (an empty list, an empty record). *)
Theorem vercel_always_returns ctx token zone r log :
  (exists recs err log1,
     Vercel.getAllRecords W J ctx token zone log
     = (Returned (recs, err), log1) /\ (err <> None -> recs = [])) /\
  (exists rec err log1,
     Vercel.createRecord W J ctx token zone r log
     = (Returned (rec, err), log1) /\ (err <> None -> rec = libdns.zero)) /\
  (exists err log1,
     Vercel.deleteRecord W ctx zone token r log = (Returned err, log1)) /\
  (exists rec err log1,
     Vercel.updateRecord W J ctx token zone r log
     = (Returned (rec, err), log1) /\ (err <> None -> rec = libdns.zero)) /\
  (exists rec err log1,
     Vercel.createOrUpdateRecord W J ctx token zone r log
     = (Returned (rec, err), log1) /\ (err <> None -> rec = libdns.zero)).
Proof.
  assert (Hc : forall log0, exists rec err log1,
             Vercel.createRecord W J ctx token zone r log0
             = (Returned (rec, err), log1) /\
             (err <> None -> rec = libdns.zero)).
  { intros log0.
    destruct (vercel_createRecord_returns W J ctx token zone r log0)
      as ([rec err] & log1 & E & Hz & _).
    now exists rec, err, log1. }
  assert (Hu : exists rec err log1,
             Vercel.updateRecord W J ctx token zone r log
             = (Returned (rec, err), log1) /\
             (err <> None -> rec = libdns.zero)).
  { rewrite vercel_updateRecord_unfold.
    destruct (vercel_deleteRecord_returns W ctx zone token r log)
      as (err & log1 & E & _).
    rewrite E. destruct err as [e|]; [|apply Hc].
    now exists libdns.zero, (Some e), log1. }
  split; [apply vercel_getAllRecords_returns|].
  split; [apply Hc|].
  split.
  { destruct (vercel_deleteRecord_returns W ctx zone token r log)
      as (err & log1 & E & _). now exists err, log1. }
  split; [exact Hu|].
  unfold Vercel.createOrUpdateRecord.
  destruct (String.length (libdns.ID r) =? 0)%nat; [apply Hc | exact Hu].
Qed.

(** X5. When [http.NewRequestWithContext] refuses a request of the Vercel
    client (a nil context, a URL that does not parse), the operation
    returns that error with the zero value and sends nothing; an update
    stops at the refused DELETE. *)
Theorem vercel_refused_request_is_an_error ctx token zone r log err :
  (snd (NewRequestWithContext W ctx "GET"
          ("https://api.vercel.com/v4/domains/" ++ zone ++ "/records") None)
   = Some err ->
   Vercel.getAllRecords W J ctx token zone log
   = (Returned ([], Some err), log)) /\
  (snd (NewRequestWithContext W ctx "DELETE"
          ("https://api.vercel.com/v2/domains/" ++ zone ++ "/records/"
           ++ libdns.ID r) None)
   = Some err ->
   Vercel.deleteRecord W ctx zone token r log = (Returned (Some err), log) /\
   Vercel.updateRecord W J ctx token zone r log
   = (Returned (libdns.zero, Some err), log)) /\
  (forall b,
     Vercel.Marshal J (vercel_outbound zone r) = inl b ->
     snd (NewRequestWithContext W ctx "POST"
            ("https://api.vercel.com/v2/domains/" ++ zone ++ "/records")
            (Some b))
     = Some err ->
     Vercel.createRecord W J ctx token zone r log
     = (Returned (libdns.zero, Some err), log)).
Proof.
  split; [|split].
  - unfold Vercel.getAllRecords.
    destruct (NewRequestWithContext W ctx "GET" _ None) as [req e].
    simpl. now intros ->.
  - intros H.
    assert (E : Vercel.deleteRecord W ctx zone token r log
                = (Returned (Some err), log)).
    { unfold Vercel.deleteRecord.
      destruct (NewRequestWithContext W ctx "DELETE" _ None) as [req e].
      simpl in H. now subst e. }
    split; [exact E|]. now rewrite vercel_updateRecord_unfold, E.
  - intros b Hb. unfold Vercel.createRecord.
    fold (vercel_outbound zone r). rewrite Hb.
    destruct (NewRequestWithContext W ctx "POST" _ (Some b)) as [req e].
    simpl. now intros ->.
Qed.

Lemma vercel_inbound_fold (wires : list Vercel.VercelRecord) :
  Forall2 vercel_inbound wires
    (fold_left
       (fun records r =>
          (records ++
           [{| libdns.ID := Vercel.Id r;
               libdns.Type_ := Vercel.Type_ r;
               libdns.Name := Vercel.Name r;
               libdns.Value := Vercel.Value r;
               libdns.TTL := time.mul (Vercel.TTL r) time.Second |}])%list)
       wires []).
Proof.
  rewrite (fold_left_append_map
             (fun r =>
                {| libdns.ID := Vercel.Id r;
                   libdns.Type_ := Vercel.Type_ r;
                   libdns.Name := Vercel.Name r;
                   libdns.Value := Vercel.Value r;
                   libdns.TTL := time.mul (Vercel.TTL r) time.Second |})).
  simpl. induction wires as [|w ws IH]; constructor; [|exact IH].
  unfold vercel_inbound. simpl. repeat split. apply time_mul_Second.
Qed.

(** X11. A successful Vercel [getAllRecords] has sent one GET, without a
    body, for the records of the zone as it was given, and returns the
    decoded records in their order, one for one: identifier, type, name
    and value are copied as they are (the name is not normalised) and
    the TTL is the wire TTL in seconds, exactly so when it is at most
    9223372036 in absolute value. *)
Theorem vercel_getAllRecords_success ctx token zone log records log1 :
  Vercel.getAllRecords W J ctx token zone log
  = (Returned (records, None), log1) ->
  exists c response data result,
    ctx = Some c /\
    let q := vercel_sent token
               (built c "GET"
                  ("https://api.vercel.com/v4/domains/" ++ zone
                   ++ "/records") None) in
    log1 = (log ++ [q])%list /\
    transport W log q = inl response /\
    is_2xx (http.StatusCode response) /\
    http.ReadAll response = (data, None) /\
    Vercel.Unmarshal_getAllRecordsResponse J data = inl result /\
    Forall2 vercel_inbound (Vercel.Records result) records.
Proof.
  unfold Vercel.getAllRecords.
  set (url := "https://api.vercel.com/v4/domains/" ++ zone ++ "/records").
  destruct ctx as [c|]; [|discriminate].
  destruct (url_Parse W url) as [e|] eqn:Eu.
  - unfold NewRequestWithContext. rewrite Eu. discriminate.
  - rewrite (NewRequestWithContext_accepts W c _ _ _ Eu). unfold bind.
    destruct (vercel_doRequest_answer W token (built c "GET" url None) log)
      as (data & err & E & Hiff).
    rewrite E. destruct err as [e|]; [discriminate|].
    destruct (proj1 Hiff eq_refl) as (response & Ht & H2 & Hr).
    destruct (Vercel.Unmarshal_getAllRecordsResponse J data)
      as [result | e] eqn:Ed; [|discriminate].
    unfold ret. intros [= <- <-].
    exists c, response, data, result. split; [reflexivity|]. cbv zeta.
    repeat split; try assumption; try apply H2.
    apply vercel_inbound_fold.
Qed.

End VercelMore.

Section VercelTraces.

Context (W : World) (J : Vercel.JSON).

Lemma vercel_deleteRecord_trace ctx zone token r log :
  exists err log1,
    Vercel.deleteRecord W ctx zone token r log = (Returned err, log1) /\
    (log1 = log /\ err <> None \/
     exists c,
       ctx = Some c /\
       log1 = (log ++
               [vercel_sent token
                  (built c "DELETE"
                     ("https://api.vercel.com/v2/domains/" ++ zone
                      ++ "/records/" ++ libdns.ID r) None)])%list).
Proof.
  unfold Vercel.deleteRecord.
  set (url := "https://api.vercel.com/v2/domains/" ++ zone ++ "/records/"
              ++ libdns.ID r).
  destruct ctx as [c|].
  - destruct (url_Parse W url) as [e|] eqn:Eu.
    + unfold NewRequestWithContext. rewrite Eu.
      do 2 eexists. split; [reflexivity|]. left. split; congruence.
    + rewrite (NewRequestWithContext_accepts W c _ _ _ Eu). unfold bind.
      destruct (vercel_doRequest_answer W token (built c "DELETE" url None)
                  log) as (data & err & E & _).
      rewrite E. destruct err; do 2 eexists; (split; [reflexivity|]);
        right; now exists c.
  - do 2 eexists. split; [reflexivity|]. left. split; congruence.
Qed.

Lemma vercel_createRecord_trace ctx token zone r log :
  exists res log1,
    Vercel.createRecord W J ctx token zone r log = (Returned res, log1) /\
    (log1 = log \/
     exists c b,
       ctx = Some c /\
       Vercel.Marshal J (vercel_outbound zone r) = inl b /\
       log1 = (log ++
               [vercel_sent token
                  (built c "POST"
                     ("https://api.vercel.com/v2/domains/" ++ zone
                      ++ "/records") (Some b))])%list).
Proof.
  unfold Vercel.createRecord. fold (vercel_outbound zone r).
  set (url := "https://api.vercel.com/v2/domains/" ++ zone ++ "/records").
  destruct (Vercel.Marshal J (vercel_outbound zone r)) as [b | e] eqn:Eb.
  - destruct ctx as [c|].
    + destruct (url_Parse W url) as [e|] eqn:Eu.
      * unfold NewRequestWithContext. rewrite Eu.
        do 2 eexists. split; [reflexivity|]. now left.
      * rewrite (NewRequestWithContext_accepts W c _ _ _ Eu). unfold bind.
        destruct (vercel_doRequest_answer W token
                    (built c "POST" url (Some b)) log)
          as (data & err & E & _).
        rewrite E.
        destruct err;
          [|destruct (Vercel.Unmarshal_createRecordResponse J data)];
          do 2 eexists; (split; [reflexivity|]); right; now exists c, b.
    + do 2 eexists. split; [reflexivity|]. now left.
  - do 2 eexists. split; [reflexivity|]. now left.
Qed.

(** X14. A Vercel [updateRecord] leaves one of three traces: nothing, the
    DELETE of the record's identifier alone, or that DELETE followed by
    the POST of the new payload to the zone's records.  The POST never
    comes first and never comes without the DELETE. *)
Theorem vercel_update_traces ctx token zone r log :
  sends (Vercel.updateRecord W J ctx token zone r) log
    (fun sent =>
       sent = [] \/
       exists c,
         ctx = Some c /\
         let delete :=
           vercel_sent token
             (built c "DELETE"
                ("https://api.vercel.com/v2/domains/" ++ zone
                 ++ "/records/" ++ libdns.ID r) None) in
         sent = [delete] \/
         exists b,
           Vercel.Marshal J (vercel_outbound zone r) = inl b /\
           sent = [delete;
                   vercel_sent token
                     (built c "POST"
                        ("https://api.vercel.com/v2/domains/" ++ zone
                         ++ "/records") (Some b))]).
Proof.
  unfold sends. rewrite vercel_updateRecord_unfold.
  destruct (vercel_deleteRecord_trace ctx zone token r log)
    as (err & log1 & E & [[-> Herr] | (c & -> & ->)]); rewrite E.
  - destruct err as [e|]; [|contradiction].
    exists []. split; [symmetry; apply app_nil_r | now left].
  - destruct err as [e|].
    + eexists [_]. split; [reflexivity|]. right. exists c.
      split; [reflexivity|]. now left.
    + destruct (vercel_createRecord_trace (Some c) token zone r
                  (log ++ [vercel_sent token
                             (built c "DELETE"
                                ("https://api.vercel.com/v2/domains/"
                                 ++ zone ++ "/records/" ++ libdns.ID r)
                                None)])%list)
        as (res & log2 & E2 & [-> | (c' & b & [= <-] & Hb & ->)]);
        rewrite E2; simpl.
      * eexists [_]. split; [reflexivity|]. right. exists c.
        split; [reflexivity|]. now left.
      * eexists [_; _]. split; [now rewrite <- app_assoc|].
        right. exists c. split; [reflexivity|]. right. now exists b.
Qed.

End VercelTraces.

(** Splits the conjunctions that are visible in the goal, leaving the
    defined predicates whole. *)
Ltac conjuncts := repeat match goal with |- _ /\ _ => split end.

Section HetznerMore.

Context (W : World) (J : Hetzner.JSON).

Lemma hetzner_getZoneData_trace ctx token name log :
  Hetzner.getZoneData W J ctx token name log
  = (Panicked nil_dereference, log) \/
  exists c out,
    ctx = Some c /\
    Hetzner.getZoneData W J ctx token name log
    = (out, (log ++ [hetzner_sent token
                       (built c "GET" (zones_url W name) None)])%list).
Proof.
  destruct ctx as [c|];
    [|left; apply hetzner_getZoneData_refused; now left].
  destruct (url_Parse W (zones_url W name)) as [e|] eqn:Eu.
  - left. apply hetzner_getZoneData_refused. right. congruence.
  - right. exists c. unfold Hetzner.getZoneData. rewrite let_pair_fst.
    fold (zones_url W name).
    rewrite (NewRequestWithContext_accepts W c _ _ _ Eu).
    unfold fst, bind.
    destruct (hetzner_doRequest_answer W token
                (built c "GET" (zones_url W name) None) log)
      as (data & err & E & _).
    rewrite E. repeat run_step; eexists; (split; reflexivity).
Qed.

Lemma inbound_one (z : Hetzner.zone.t) (wire : Hetzner.record.t) :
  inbound z wire
    (let rec :=
       {| libdns.ID := Hetzner.record.ID wire;
          libdns.Type_ := Hetzner.record.Type_ wire;
          libdns.Name := Hetzner.record.Name wire;
          libdns.Value := Hetzner.record.Value wire;
          libdns.TTL := 0%Z |} in
     match Hetzner.record.TTL wire with
     | Some ttl => libdns.set_TTL rec (time.mul ttl time.Second)
     | None =>
         libdns.set_TTL rec (time.mul (Hetzner.zone.TTL z) time.Second)
     end).
Proof.
  unfold inbound. destruct (Hetzner.record.TTL wire); simpl;
    repeat split; apply time_mul_Second.
Qed.

(** X9. A successful Hetzner [createRecord] has made two requests: the
    zone listing, then a POST to the records endpoint whose body encodes
    the payload for the zone the listing returned.  The record it returns
    is the one in the provider's answer, translated inbound: the caller's
    input does not reach it, and a TTL the answer omits is the zone's
    default. *)
Theorem hetzner_createRecord_success ctx token zone r log rec log2 :
  Hetzner.createRecord W J ctx token zone r log
  = (Returned (rec, None), log2) ->
  exists c z b response data result,
    ctx = Some c /\
    let listing :=
      hetzner_sent token (built c "GET" (zones_url W zone) None) in
    let post :=
      hetzner_sent token
        (built c "POST" "https://dns.hetzner.com/api/v1/records" (Some b)) in
    Hetzner.getZoneData W J ctx token zone log
    = (Returned (z, None), (log ++ [listing])%list) /\
    Hetzner.Marshal J (outbound z zone r) = inl b /\
    log2 = (log ++ [listing; post])%list /\
    transport W (log ++ [listing])%list post = inl response /\
    is_2xx (http.StatusCode response) /\
    http.ReadAll response = (data, None) /\
    Hetzner.Unmarshal_createRecordResponse J data = inl result /\
    inbound z (Hetzner.created result) rec.
Proof.
  unfold Hetzner.createRecord, bind at 1.
  destruct (hetzner_getZoneData_trace ctx token zone log)
    as [E | (c & out & -> & E)]; rewrite E; [discriminate|].
  destruct out as [[z [e|]] | f]; try discriminate.
  cbv beta iota. unfold Hetzner.ptr. fold (outbound z zone r).
  destruct (Hetzner.Marshal J (outbound z zone r)) as [b | e] eqn:Eb;
    [|discriminate].
  rewrite let_pair_fst.
  destruct (url_Parse W "https://dns.hetzner.com/api/v1/records")
    as [e|] eqn:Eu.
  - rewrite (NewRequestWithContext_refuses W (Some c) "POST" _ (Some b))
      by (right; congruence).
    discriminate.
  - rewrite (NewRequestWithContext_accepts W c _ _ _ Eu).
    unfold fst, bind.
    destruct (hetzner_doRequest_answer W token
                (built c "POST" "https://dns.hetzner.com/api/v1/records"
                   (Some b))
                (log ++ [hetzner_sent token
                           (built c "GET" (zones_url W zone) None)])%list)
      as (data & err & Ed & Hiff).
    rewrite Ed. destruct err as [e|]; [discriminate|].
    destruct (proj1 Hiff eq_refl) as (response & Ht & H2 & Hr).
    destruct (Hetzner.Unmarshal_createRecordResponse J data)
      as [result | e] eqn:Er; [|discriminate].
    unfold ret. intros [= <- <-].
    exists c, z, b, response, data, result.
    split; [reflexivity|]. cbv zeta.
    conjuncts; try assumption; try reflexivity.
    + now rewrite <- app_assoc.
    + apply inbound_one.
Qed.

(** X10. A successful Hetzner [updateRecord] has made two requests: the
    zone listing, then a PUT to the record's identifier whose body encodes
    the payload for the zone the listing returned.  The record it returns
    is the one in the provider's answer, translated inbound, its
    identifier included. *)
Theorem hetzner_updateRecord_success ctx token zone r log rec log2 :
  Hetzner.updateRecord W J ctx token zone r log
  = (Returned (rec, None), log2) ->
  exists c z b response data result,
    ctx = Some c /\
    let listing :=
      hetzner_sent token (built c "GET" (zones_url W zone) None) in
    let put :=
      hetzner_sent token
        (built c "PUT"
           ("https://dns.hetzner.com/api/v1/records/" ++ libdns.ID r)
           (Some b)) in
    Hetzner.getZoneData W J ctx token zone log
    = (Returned (z, None), (log ++ [listing])%list) /\
    Hetzner.Marshal J (outbound z zone r) = inl b /\
    log2 = (log ++ [listing; put])%list /\
    transport W (log ++ [listing])%list put = inl response /\
    is_2xx (http.StatusCode response) /\
    http.ReadAll response = (data, None) /\
    Hetzner.Unmarshal_updateRecordResponse J data = inl result /\
    inbound z (Hetzner.updated result) rec.
Proof.
  unfold Hetzner.updateRecord, bind at 1.
  destruct (hetzner_getZoneData_trace ctx token zone log)
    as [E | (c & out & -> & E)]; rewrite E; [discriminate|].
  destruct out as [[z [e|]] | f]; try discriminate.
  cbv beta iota. unfold Hetzner.ptr. fold (outbound z zone r).
  destruct (Hetzner.Marshal J (outbound z zone r)) as [b | e] eqn:Eb;
    [|discriminate].
  rewrite let_pair_fst.
  set (url := "https://dns.hetzner.com/api/v1/records/" ++ libdns.ID r).
  destruct (url_Parse W url) as [e|] eqn:Eu.
  - rewrite (NewRequestWithContext_refuses W (Some c) "PUT" _ (Some b))
      by (right; congruence).
    discriminate.
  - rewrite (NewRequestWithContext_accepts W c _ _ _ Eu).
    unfold fst, bind.
    destruct (hetzner_doRequest_answer W token
                (built c "PUT" url (Some b))
                (log ++ [hetzner_sent token
                           (built c "GET" (zones_url W zone) None)])%list)
      as (data & err & Ed & Hiff).
    rewrite Ed. destruct err as [e|]; [discriminate|].
    destruct (proj1 Hiff eq_refl) as (response & Ht & H2 & Hr).
    destruct (Hetzner.Unmarshal_updateRecordResponse J data)
      as [result | e] eqn:Er; [|discriminate].
    unfold ret. intros [= <- <-].
    exists c, z, b, response, data, result.
    split; [reflexivity|]. cbv zeta.
    conjuncts; try assumption; try reflexivity.
    + now rewrite <- app_assoc.
    + apply inbound_one.
Qed.

End HetznerMore.

Section Traces.

Context (W : World) (JV : Vercel.JSON) (JH : Hetzner.JSON).

Lemma sends_nothing {A} (m : IO A) (log : list http.Request)
    (P : list http.Request -> Prop) :
  snd (m log) = log -> P [] -> sends m log P.
Proof.
  intros E HP. exists []. rewrite E. split; [|exact HP].
  symmetry. apply app_nil_r.
Qed.

Lemma sends_one {A} (m : IO A) (log : list http.Request)
    (q : http.Request) (P : list http.Request -> Prop) :
  snd (m log) = (log ++ [q])%list -> P [q] -> sends m log P.
Proof. intros E HP. exists [q]. rewrite E. now split. Qed.

Lemma sends_two {A} (m : IO A) (log : list http.Request)
    (q1 q2 : http.Request) (P : list http.Request -> Prop) :
  snd (m log) = ((log ++ [q1]) ++ [q2])%list -> P [q1; q2] ->
  sends m log P.
Proof.
  intros E HP. exists [q1; q2]. rewrite E. split; [|exact HP].
  now rewrite <- app_assoc.
Qed.

(** A computation that only decides what to return leaves the log as it
    found it. *)
Ltac settle :=
  repeat run_step; unfold ret, panic; reflexivity.

(** X12. [getAllRecords] only reads.  The Vercel one sends nothing or the
    one GET for the zone's records.  The Hetzner one sends nothing, or the
    zone listing alone, or the zone listing followed by a GET for the
    records of the zone that listing returned; no request has a body. *)
Theorem getAllRecords_traces ctx token zone log :
  sends (Vercel.getAllRecords W JV ctx token zone) log
    (fun sent =>
       sent = [] \/
       exists c,
         ctx = Some c /\
         sent = [vercel_sent token
                   (built c "GET"
                      ("https://api.vercel.com/v4/domains/" ++ zone
                       ++ "/records") None)]) /\
  sends (Hetzner.getAllRecords W JH ctx token zone) log
    (fun sent =>
       sent = [] \/
       exists c,
         ctx = Some c /\
         let listing :=
           hetzner_sent token (built c "GET" (zones_url W zone) None) in
         sent = [listing] \/
         exists z,
           Hetzner.getZoneData W JH ctx token zone log
           = (Returned (z, None), (log ++ [listing])%list) /\
           sent = [listing;
                   hetzner_sent token
                     (built c "GET"
                        ("https://dns.hetzner.com/api/v1/records?zone_id="
                         ++ Hetzner.zone.ID z) None)]).
Proof.
  split.
  - unfold Vercel.getAllRecords.
    set (url := "https://api.vercel.com/v4/domains/" ++ zone ++ "/records").
    destruct ctx as [c|];
      [|eapply sends_nothing; [reflexivity | now left]].
    destruct (url_Parse W url) as [e|] eqn:Eu.
    + unfold NewRequestWithContext. rewrite Eu.
      eapply sends_nothing; [reflexivity | now left].
    + rewrite (NewRequestWithContext_accepts W c _ _ _ Eu).
      destruct (vercel_doRequest_answer W token (built c "GET" url None) log)
        as (data & err & E & _).
      eapply sends_one.
      * unfold bind. rewrite E. settle.
      * right. now exists c.
  - unfold Hetzner.getAllRecords.
    destruct (hetzner_getZoneData_trace W JH ctx token zone log)
      as [E | (c & out & -> & E)].
    + eapply sends_nothing; [|now left]. unfold bind at 1. now rewrite E.
    + destruct out as [[z [e|]] | f].
      1, 3: (eapply sends_one;
             [ unfold bind at 1; rewrite E; reflexivity
             | right; exists c; split; [reflexivity | now left] ]).
      set (url := "https://dns.hetzner.com/api/v1/records?zone_id="
                  ++ Hetzner.zone.ID z).
      destruct (url_Parse W url) as [e|] eqn:Eu.
      * eapply sends_one.
        -- unfold bind at 1. rewrite E. rewrite let_pair_fst.
           fold url.
           rewrite (NewRequestWithContext_refuses W (Some c) "GET" url None)
             by (right; congruence).
           reflexivity.
        -- right. exists c. split; [reflexivity | now left].
      * destruct (hetzner_doRequest_answer W token (built c "GET" url None)
                    (log ++ [hetzner_sent token
                               (built c "GET" (zones_url W zone) None)])%list)
          as (data & err & Ed & _).
        eapply sends_two.
        -- unfold bind at 1. rewrite E. rewrite let_pair_fst. fold url.
           rewrite (NewRequestWithContext_accepts W c _ _ _ Eu).
           unfold fst, bind. rewrite Ed. settle.
        -- right. exists c. split; [reflexivity|]. right. now exists z.
Qed.

(** X13. A Hetzner [createRecord] or [updateRecord] leaves one of three
    traces: nothing, the zone listing alone, or the zone listing followed
    by the write, a POST to the records endpoint or a PUT to the record's
    identifier, whose body encodes the payload for the zone the listing
    returned.  An update is made in place: it sends no DELETE and no
    POST. *)
Theorem hetzner_write_traces ctx token zone r log :
  sends (Hetzner.createRecord W JH ctx token zone r) log
    (fun sent =>
       sent = [] \/
       exists c,
         ctx = Some c /\
         let listing :=
           hetzner_sent token (built c "GET" (zones_url W zone) None) in
         sent = [listing] \/
         exists z b,
           Hetzner.getZoneData W JH ctx token zone log
           = (Returned (z, None), (log ++ [listing])%list) /\
           Hetzner.Marshal JH (outbound z zone r) = inl b /\
           sent = [listing;
                   hetzner_sent token
                     (built c "POST"
                        "https://dns.hetzner.com/api/v1/records"
                        (Some b))]) /\
  sends (Hetzner.updateRecord W JH ctx token zone r) log
    (fun sent =>
       sent = [] \/
       exists c,
         ctx = Some c /\
         let listing :=
           hetzner_sent token (built c "GET" (zones_url W zone) None) in
         sent = [listing] \/
         exists z b,
           Hetzner.getZoneData W JH ctx token zone log
           = (Returned (z, None), (log ++ [listing])%list) /\
           Hetzner.Marshal JH (outbound z zone r) = inl b /\
           sent = [listing;
                   hetzner_sent token
                     (built c "PUT"
                        ("https://dns.hetzner.com/api/v1/records/"
                         ++ libdns.ID r)
                        (Some b))]).
Proof.
  split.
  - unfold Hetzner.createRecord.
    destruct (hetzner_getZoneData_trace W JH ctx token zone log)
      as [E | (c & out & -> & E)].
    + eapply sends_nothing; [|now left]. unfold bind at 1. now rewrite E.
    + destruct out as [[z [e|]] | f].
      1, 3: (eapply sends_one;
             [ unfold bind at 1; rewrite E; reflexivity
             | right; exists c; split; [reflexivity | now left] ]).
      destruct (Hetzner.Marshal JH (outbound z zone r)) as [b | e] eqn:Eb.
      2: { eapply sends_one.
           - unfold bind at 1. rewrite E. cbv beta iota.
             unfold Hetzner.ptr. fold (outbound z zone r). rewrite Eb.
             reflexivity.
           - right. exists c. split; [reflexivity | now left]. }
      set (url := "https://dns.hetzner.com/api/v1/records").
      destruct (url_Parse W url) as [e|] eqn:Eu.
      * eapply sends_one.
        -- unfold bind at 1. rewrite E. cbv beta iota.
           unfold Hetzner.ptr. fold (outbound z zone r). rewrite Eb.
           rewrite let_pair_fst. fold url.
           rewrite (NewRequestWithContext_refuses W (Some c) "POST" url
                      (Some b)) by (right; congruence).
           reflexivity.
        -- right. exists c. split; [reflexivity | now left].
      * destruct (hetzner_doRequest_answer W token
                    (built c "POST" url (Some b))
                    (log ++ [hetzner_sent token
                               (built c "GET" (zones_url W zone) None)])%list)
          as (data & err & Ed & _).
        eapply sends_two.
        -- unfold bind at 1. rewrite E. cbv beta iota.
           unfold Hetzner.ptr. fold (outbound z zone r). rewrite Eb.
           rewrite let_pair_fst. fold url.
           rewrite (NewRequestWithContext_accepts W c _ _ _ Eu).
           unfold fst, bind. rewrite Ed. settle.
        -- right. exists c. split; [reflexivity|]. right. now exists z, b.
  - unfold Hetzner.updateRecord.
    destruct (hetzner_getZoneData_trace W JH ctx token zone log)
      as [E | (c & out & -> & E)].
    + eapply sends_nothing; [|now left]. unfold bind at 1. now rewrite E.
    + destruct out as [[z [e|]] | f].
      1, 3: (eapply sends_one;
             [ unfold bind at 1; rewrite E; reflexivity
             | right; exists c; split; [reflexivity | now left] ]).
      destruct (Hetzner.Marshal JH (outbound z zone r)) as [b | e] eqn:Eb.
      2: { eapply sends_one.
           - unfold bind at 1. rewrite E. cbv beta iota.
             unfold Hetzner.ptr. fold (outbound z zone r). rewrite Eb.
             reflexivity.
           - right. exists c. split; [reflexivity | now left]. }
      set (url := "https://dns.hetzner.com/api/v1/records/" ++ libdns.ID r).
      destruct (url_Parse W url) as [e|] eqn:Eu.
      * eapply sends_one.
        -- unfold bind at 1. rewrite E. cbv beta iota.
           unfold Hetzner.ptr. fold (outbound z zone r). rewrite Eb.
           rewrite let_pair_fst. fold url.
           rewrite (NewRequestWithContext_refuses W (Some c) "PUT" url
                      (Some b)) by (right; congruence).
           reflexivity.
        -- right. exists c. split; [reflexivity | now left].
      * destruct (hetzner_doRequest_answer W token
                    (built c "PUT" url (Some b))
                    (log ++ [hetzner_sent token
                               (built c "GET" (zones_url W zone) None)])%list)
          as (data & err & Ed & _).
        eapply sends_two.
        -- unfold bind at 1. rewrite E. cbv beta iota.
           unfold Hetzner.ptr. fold (outbound z zone r). rewrite Eb.
           rewrite let_pair_fst. fold url.
           rewrite (NewRequestWithContext_accepts W c _ _ _ Eu).
           unfold fst, bind. rewrite Ed. settle.
        -- right. exists c. split; [reflexivity|]. right. now exists z, b.
Qed.

End Traces.

Section ErrorValues.

Context (W : World) (J : Hetzner.JSON).

Lemma bind_error_value {A B : Type} (zero : B) (m : IO A)
    (k : A -> IO (B * option error)) :
  (forall a log0 v e log1,
     k a log0 = (Returned (v, Some e), log1) -> v = zero) ->
  forall log v e log1,
    bind m k log = (Returned (v, Some e), log1) -> v = zero.
Proof.
  intros Hk log v e log1. unfold bind.
  destruct (m log) as [[a | f] log0]; [apply Hk | discriminate].
Qed.

(** Closes the case of a computation that returns at once. *)
Ltac error_value :=
  repeat run_step; unfold ret, panic;
  intros H; first [ discriminate H | now injection H as <- ].

Lemma hetzner_getZoneData_error_value ctx token name log z e log1 :
  Hetzner.getZoneData W J ctx token name log = (Returned (z, Some e), log1) ->
  z = Hetzner.zone.zero.
Proof.
  unfold Hetzner.getZoneData. rewrite let_pair_fst.
  apply bind_error_value. intros [data err] log0 v e0 log2. error_value.
Qed.

(** X17. Whenever an operation of the Hetzner client returns an error, the
    value beside it is the zero value: the empty zone from [getZoneData],
    no records from [getAllRecords], the empty record from
    [createRecord], [updateRecord] and [createOrUpdateRecord].  Nothing
    decoded from a failed exchange reaches the caller. *)
Theorem hetzner_error_values ctx token zone r log e log1 :
  (forall z,
     Hetzner.getZoneData W J ctx token zone log
     = (Returned (z, Some e), log1) -> z = Hetzner.zone.zero) /\
  (forall recs,
     Hetzner.getAllRecords W J ctx token zone log
     = (Returned (recs, Some e), log1) -> recs = []) /\
  (forall rec,
     Hetzner.createRecord W J ctx token zone r log
     = (Returned (rec, Some e), log1) -> rec = libdns.zero) /\
  (forall rec,
     Hetzner.updateRecord W J ctx token zone r log
     = (Returned (rec, Some e), log1) -> rec = libdns.zero) /\
  (forall rec,
     Hetzner.createOrUpdateRecord W J ctx token zone r log
     = (Returned (rec, Some e), log1) -> rec = libdns.zero).
Proof.
  assert (Hc : forall rec,
             Hetzner.createRecord W J ctx token zone r log
             = (Returned (rec, Some e), log1) -> rec = libdns.zero).
  { intros rec. unfold Hetzner.createRecord. apply bind_error_value.
    intros [zoneData [err|]] log0 v e0 log2; [error_value|].
    destruct (Hetzner.Marshal J _) as [b | err]; [|error_value].
    rewrite let_pair_fst. apply bind_error_value.
    intros [data err] log3 v' e1 log4. error_value. }
  assert (Hu : forall rec,
             Hetzner.updateRecord W J ctx token zone r log
             = (Returned (rec, Some e), log1) -> rec = libdns.zero).
  { intros rec. unfold Hetzner.updateRecord. apply bind_error_value.
    intros [zoneData [err|]] log0 v e0 log2; [error_value|].
    destruct (Hetzner.Marshal J _) as [b | err]; [|error_value].
    rewrite let_pair_fst. apply bind_error_value.
    intros [data err] log3 v' e1 log4. error_value. }
  split; [intros z; apply hetzner_getZoneData_error_value|].
  split.
  { intros recs. unfold Hetzner.getAllRecords. apply bind_error_value.
    intros [zoneData [err|]] log0 v e0 log2; [error_value|].
    rewrite let_pair_fst. apply bind_error_value.
    intros [data err] log3 v' e1 log4. error_value. }
  split; [exact Hc|]. split; [exact Hu|].
  intros rec. unfold Hetzner.createOrUpdateRecord.
  destruct (String.length (libdns.ID r) =? 0)%nat; [apply Hc | apply Hu].
Qed.

End ErrorValues.

Section Removed.

Import strings.

Lemma unFQDN_cases (s : string) :
  exists d, (d = "" \/ d = ".") /\ s = unFQDN s ++ d.
Proof.
  destruct (HasSuffix s ".") eqn:E.
  - apply HasSuffix_iff in E as [p ->]. rewrite unFQDN_dot.
    exists ".". auto.
  - rewrite unFQDN_no_dot by assumption. exists "".
    split; [now left | now rewrite append_nil_r].
Qed.

Lemma TrimSuffix_cases (s x : string) :
  exists t, (t = "" \/ t = x) /\ s = TrimSuffix s x ++ t.
Proof.
  destruct (HasSuffix s x) eqn:E.
  - apply HasSuffix_iff in E as [p ->]. rewrite TrimSuffix_append.
    exists x. auto.
  - rewrite TrimSuffix_none by assumption. exists "".
    split; [now left | now rewrite append_nil_r].
Qed.

(** X16. [normalizeRecordName] only ever cuts the end of the name: the
    name is the result followed by an optional dot, then nothing or the
    dot-stripped zone, then an optional dot.  So the result is a prefix
    of the name, at most two dots and one copy of the zone shorter. *)
Theorem normalizeRecordName_removes (name zone : string) :
  exists d1 z d2,
    (d1 = "" \/ d1 = ".") /\
    (z = "" \/ z = unFQDN zone) /\
    (d2 = "" \/ d2 = ".") /\
    name = Hetzner.normalizeRecordName name zone ++ d1 ++ z ++ d2 /\
    name = Vercel.normalizeRecordName name zone ++ d1 ++ z ++ d2.
Proof.
  unfold Vercel.normalizeRecordName, Hetzner.normalizeRecordName.
  destruct (unFQDN_cases name) as (d2 & H2 & E2).
  destruct (TrimSuffix_cases (unFQDN name) (unFQDN zone)) as (z & Hz & Ez).
  destruct (unFQDN_cases (TrimSuffix (unFQDN name) (unFQDN zone)))
    as (d1 & H1 & E1).
  exists d1, z, d2. repeat split; try assumption.
  all: rewrite E2 at 1; rewrite Ez at 1; rewrite E1 at 1;
    now rewrite !append_assoc.
Qed.

End Removed.

(** * The TTL sent and the TTL returned *)

Section VercelPayload.

Context (W : World) (J : Vercel.JSON).

(** Once the payload is encoded and the request accepted, [createRecord]
    sends one request, whatever the provider answers: the POST with the
    encoded payload as its body. *)
Lemma vercel_createRecord_posts c token zone r log b :
  Vercel.Marshal J (vercel_outbound zone r) = inl b ->
  url_Parse W ("https://api.vercel.com/v2/domains/" ++ zone ++ "/records")
  = None ->
  snd (Vercel.createRecord W J (Some c) token zone r log)
  = (log ++ [vercel_sent token
               (built c "POST"
                  ("https://api.vercel.com/v2/domains/" ++ zone ++ "/records")
                  (Some b))])%list.
Proof.
  intros Hb Hu. unfold Vercel.createRecord. cbv zeta.
  unfold vercel_outbound in Hb. rewrite Hb.
  rewrite (NewRequestWithContext_accepts W c _ _ _ Hu).
  unfold bind.
  destruct (vercel_doRequest_answer W token
              (built c "POST"
                 ("https://api.vercel.com/v2/domains/" ++ zone ++ "/records")
                 (Some b)) log) as (data & err & E & _).
  rewrite E. destruct err as [e|]; [reflexivity|].
  now destruct (Vercel.Unmarshal_createRecordResponse J data).
Qed.

(** C5, amended.  For an input record whose TTL is below 2^24 seconds or
    is a whole number of seconds, the Vercel [createRecord] sends, once the
    payload is encoded and the request accepted, exactly one request: a
    POST whose body encodes the record with the TTL [max(t, 60)], [t]
    being the whole seconds of the caller's TTL (the nanoseconds divided
    by [time.Second], the fraction dropped).  For any input the TTL sent
    is [max(int(r.TTL.Seconds()), 60)], and from 2^24 seconds on the float
    conversion can give the next second. *)
Theorem vercel_create_ttl_floor c token zone r log b :
  let url := "https://api.vercel.com/v2/domains/" ++ zone ++ "/records" in
  let payload ttl :=
    {| Vercel.Id := "";
       Vercel.Type_ := libdns.Type_ r;
       Vercel.Name := Vercel.normalizeRecordName (libdns.Name r) zone;
       Vercel.Value := libdns.Value r;
       Vercel.TTL := ttl |} in
  let post := vercel_sent token (built c "POST" url (Some b)) in
  url_Parse W url = None ->
  ((libdns.TTL r < 2 ^ 24 * time.Second)%Z \/ whole_seconds (libdns.TTL r) ->
   Vercel.Marshal J
     (payload (Z.max (Z.quot (libdns.TTL r) time.Second) 60)) = inl b ->
   snd (Vercel.createRecord W J (Some c) token zone r log)
   = (log ++ [post])%list) /\
  (Vercel.Marshal J
     (payload (Z.max (float64.to_int (time.Seconds (libdns.TTL r))) 60))
   = inl b ->
   snd (Vercel.createRecord W J (Some c) token zone r log)
   = (log ++ [post])%list).
Proof.
  intros url payload post Hu. split.
  - intros Hr Hb. apply vercel_createRecord_posts; [|exact Hu].
    unfold vercel_outbound. rewrite (vercel_ttl_plain _ Hr). exact Hb.
  - intros Hb. apply vercel_createRecord_posts; [|exact Hu].
    unfold vercel_outbound. rewrite to_int_Max_60. exact Hb.
Qed.

End VercelPayload.

Lemma vercel_create_ttl_floor_witness :
  let W := Fake.world [Fake.ok "rec_1"] in
  let url := "https://api.vercel.com/v2/domains/example.com/records" in
  snd (Vercel.createRecord W vercel_ttl_json (Some 0) "token" "example.com"
         (a_record_with (10 * time.Second)%Z) [])
  = [vercel_sent "token"
       (built 0 "POST" url (Some "_acme-challenge ttl=60"))] /\
  snd (Vercel.createRecord W vercel_ttl_json (Some 0) "token" "example.com"
         (a_record_with (300 * time.Second)%Z) [])
  = [vercel_sent "token"
       (built 0 "POST" url (Some "_acme-challenge ttl=300"))].
Proof.
  intros W0 url. split.
  - apply (proj1 (vercel_create_ttl_floor W0 vercel_ttl_json 0 "token"
                    "example.com" (a_record_with (10 * time.Second)%Z) []
                    "_acme-challenge ttl=60" eq_refl)).
    + left. reflexivity.
    + reflexivity.
  - apply (proj1 (vercel_create_ttl_floor W0 vercel_ttl_json 0 "token"
                    "example.com" (a_record_with (300 * time.Second)%Z) []
                    "_acme-challenge ttl=300" eq_refl)).
    + right. exists 300%Z. split; [unfold fits_duration; lia | reflexivity].
    + reflexivity.
Defined.

(** C5, as stated, fails for a TTL of 16777216.999999999 seconds: the sum
    of the two floats in [Duration.Seconds] rounds up to 16777217, which is
    sent, while the TTL has 16777216 whole seconds. *)
Lemma vercel_ttl_floor_counterexample :
  let W := Fake.world [Fake.ok "rec_1"] in
  let r := a_record_with 16777216999999999%Z in
  snd (Vercel.createRecord W vercel_ttl_json (Some 0) "token" "example.com"
         r [])
  = [vercel_sent "token"
       (built 0 "POST"
          "https://api.vercel.com/v2/domains/example.com/records"
          (Some "_acme-challenge ttl=16777217"))] /\
  Z.max (Z.quot (libdns.TTL r) time.Second) 60 = 16777216%Z /\
  Vercel.Marshal vercel_ttl_json
    {| Vercel.Id := "";
       Vercel.Type_ := libdns.Type_ r;
       Vercel.Name := Vercel.normalizeRecordName (libdns.Name r) "example.com";
       Vercel.Value := libdns.Value r;
       Vercel.TTL := Z.max (Z.quot (libdns.TTL r) time.Second) 60 |}
  <> inl "_acme-challenge ttl=16777217".
Proof.
  intros W0 r. split; [now vm_compute|]. split; [now vm_compute|].
  vm_compute. discriminate.
Qed.

Section HetznerPayload.

Context (W : World) (J : Hetzner.JSON).

(** Once the zone is resolved, the payload encoded and the request
    accepted, [createRecord] sends one more request, whatever the provider
    answers: the POST with the encoded payload as its body. *)
Lemma hetzner_createRecord_posts c token zone r log z log1 b :
  Hetzner.getZoneData W J (Some c) token zone log
  = (Returned (z, None), log1) ->
  Hetzner.Marshal J (outbound z zone r) = inl b ->
  url_Parse W "https://dns.hetzner.com/api/v1/records" = None ->
  snd (Hetzner.createRecord W J (Some c) token zone r log)
  = (log1 ++ [hetzner_sent token
                (built c "POST" "https://dns.hetzner.com/api/v1/records"
                   (Some b))])%list.
Proof.
  intros Hz Hb Hu. unfold Hetzner.createRecord, bind at 1. rewrite Hz.
  cbv beta iota zeta. unfold Hetzner.ptr.
  unfold outbound in Hb. rewrite Hb.
  rewrite (NewRequestWithContext_accepts W c _ _ _ Hu).
  unfold bind.
  destruct (hetzner_doRequest_answer W token
              (built c "POST" "https://dns.hetzner.com/api/v1/records"
                 (Some b)) log1) as (data & err & E & _).
  rewrite E. destruct err as [e|]; [reflexivity|].
  now destruct (Hetzner.Unmarshal_createRecordResponse J data).
Qed.

Lemma hetzner_updateRecord_puts c token zone r log z log1 b :
  Hetzner.getZoneData W J (Some c) token zone log
  = (Returned (z, None), log1) ->
  Hetzner.Marshal J (outbound z zone r) = inl b ->
  url_Parse W ("https://dns.hetzner.com/api/v1/records/" ++ libdns.ID r)
  = None ->
  snd (Hetzner.updateRecord W J (Some c) token zone r log)
  = (log1 ++ [hetzner_sent token
                (built c "PUT"
                   ("https://dns.hetzner.com/api/v1/records/" ++ libdns.ID r)
                   (Some b))])%list.
Proof.
  intros Hz Hb Hu. unfold Hetzner.updateRecord, bind at 1. rewrite Hz.
  cbv beta iota zeta. unfold Hetzner.ptr.
  unfold outbound in Hb. rewrite Hb.
  rewrite (NewRequestWithContext_accepts W c _ _ _ Hu).
  unfold bind.
  destruct (hetzner_doRequest_answer W token
              (built c "PUT"
                 ("https://dns.hetzner.com/api/v1/records/" ++ libdns.ID r)
                 (Some b)) log1) as (data & err & E & _).
  rewrite E. destruct err as [e|]; [reflexivity|].
  now destruct (Hetzner.Unmarshal_updateRecordResponse J data).
Qed.

(** C4, amended.  Outbound: once the zone is resolved to [z], the payload
    encoded and the request accepted, [createRecord] sends after the zone
    listing exactly one request, a POST, and [updateRecord] a PUT, whose
    body encodes the record with a TTL that is present and is the whole
    seconds of the caller's TTL (the nanoseconds divided by [time.Second],
    the fraction dropped), zero for a zero TTL, whatever the default of
    [z], for a caller's TTL that is a whole number of seconds or lies in
    [0, 2^24) seconds.  For any input the TTL sent is
    [int(r.TTL.Seconds())], and from 2^24 seconds on the float conversion can
    give the next second.  No other POST or PUT is ever sent.
    Inbound: each record [getAllRecords] returns has the wire TTL when
    there is one and the zone's default otherwise, as that many seconds
    provided the count is at most 9223372036 in absolute value; the
    general value is the 64-bit product with [time.Second]. *)
Theorem hetzner_ttl_translation c token zone r log :
  let payload z ttl :=
    {| Hetzner.record.ID := "";
       Hetzner.record.ZoneID := Hetzner.zone.ID z;
       Hetzner.record.Type_ := libdns.Type_ r;
       Hetzner.record.Name :=
         Hetzner.normalizeRecordName (libdns.Name r) zone;
       Hetzner.record.Value := libdns.Value r;
       Hetzner.record.TTL := ttl |} in
  let post := "https://dns.hetzner.com/api/v1/records" in
  let put := "https://dns.hetzner.com/api/v1/records/" ++ libdns.ID r in
  let writes z log1 ttl :=
    forall b,
      Hetzner.getZoneData W J (Some c) token zone log
      = (Returned (z, None), log1) ->
      Hetzner.Marshal J (payload z (Some ttl)) = inl b ->
      (url_Parse W post = None ->
       snd (Hetzner.createRecord W J (Some c) token zone r log)
       = (log1 ++ [hetzner_sent token (built c "POST" post (Some b))])%list)
      /\
      (url_Parse W put = None ->
       snd (Hetzner.updateRecord W J (Some c) token zone r log)
       = (log1 ++ [hetzner_sent token (built c "PUT" put (Some b))])%list) in
  (forall z log1,
     (0 <= libdns.TTL r < 2 ^ 24 * time.Second)%Z
     \/ whole_seconds (libdns.TTL r) ->
     writes z log1 (Z.quot (libdns.TTL r) time.Second)) /\
  (forall z log1,
     writes z log1 (float64.to_int (time.Seconds (libdns.TTL r)))) /\
  (forall ctx,
     sends (Hetzner.createRecord W J ctx token zone r) log
       (Forall (fun q =>
          http.Method q = "GET" \/
          http.Method q = "POST" /\ carries J zone r q)) /\
     sends (Hetzner.updateRecord W J ctx token zone r) log
       (Forall (fun q =>
          http.Method q = "GET" \/
          http.Method q = "PUT" /\ carries J zone r q))) /\
  (forall ctx records log1,
     Hetzner.getAllRecords W J ctx token zone log
     = (Returned (records, None), log1) ->
     exists zoneData log0 data result,
       Hetzner.getZoneData W J ctx token zone log
       = (Returned (zoneData, None), log0) /\
       Hetzner.doRequest W token
         (fst (NewRequestWithContext W ctx "GET"
                 ("https://dns.hetzner.com/api/v1/records?zone_id="
                  ++ Hetzner.zone.ID zoneData) None)) log0
       = (Returned (data, None), log1) /\
       Hetzner.Unmarshal_getAllRecordsResponse J data = inl result /\
       Forall2 (inbound zoneData) (Hetzner.Records result) records).
Proof.
  intros payload post put writes.
  assert (General : forall z log1,
            writes z log1 (float64.to_int (time.Seconds (libdns.TTL r)))).
  { intros z log1 b Hz Hb. split; intros Hu.
    - exact (hetzner_createRecord_posts c token zone r log z log1 b Hz Hb Hu).
    - exact (hetzner_updateRecord_puts c token zone r log z log1 b Hz Hb Hu). }
  split; [|split; [exact General|split]].
  - intros z log1 Hr. rewrite <- (hetzner_ttl_plain _ Hr). apply General.
  - intros ctx. split;
      [apply hetzner_createRecord_sends | apply hetzner_updateRecord_sends].
  - intros ctx records log1. unfold Hetzner.getAllRecords, bind at 1.
    destruct (Hetzner.getZoneData W J ctx token zone log)
      as [[[zoneData [err|]] | fault] log0]; try discriminate.
    rewrite let_pair_fst. unfold bind.
    destruct (Hetzner.doRequest W token _ log0)
      as [[[data [err|]] | fault] log2] eqn:Ed; try discriminate.
    destruct (Hetzner.Unmarshal_getAllRecordsResponse J data)
      as [result | err] eqn:Eu; try discriminate.
    unfold ret. intros [= <- <-].
    exists zoneData, log0, data, result.
    repeat split; try assumption. apply inbound_fold.
Qed.

End HetznerPayload.

(** C4, as stated, fails in both directions.  Inbound, for a TTL beyond
    9223372036 seconds the product with [time.Second] leaves the 64-bit
    range and wraps: the provider answers with a record whose TTL is
    10000000000 and the record returned to the caller has a negative TTL.
    Outbound, a caller's TTL of 16777216.999999999 seconds, which has
    16777216 whole seconds, is sent as 16777217: the sum of the two floats
    in [Duration.Seconds] rounds up. *)
Lemma hetzner_ttl_counterexample :
  (let W := Fake.world [Fake.ok "zones"; Fake.ok "records"] in
   let J :=
     Fake.hetzner_json [Fake.a_zone] [Fake.wire (Some 10000000000%Z)] in
   exists rec log1,
     Hetzner.getAllRecords W J (Some 0) "token" "example.com" []
     = (Returned ([rec], None), log1) /\
     libdns.TTL rec = (-8446744073709551616)%Z /\
     libdns.TTL rec <> (10000000000 * time.Second)%Z) /\
  (let W := Fake.world [Fake.ok "zones"; Fake.ok "record"] in
   let J := hetzner_ttl_json [Fake.a_zone] [Fake.wire None] in
   let r := a_record_with 16777216999999999%Z in
   snd (Hetzner.createRecord W J (Some 0) "token" "example.com" r [])
   = [hetzner_sent "token"
        (built 0 "GET" "https://dns.hetzner.com/api/v1/zones?name=example.com"
           None);
      hetzner_sent "token"
        (built 0 "POST" "https://dns.hetzner.com/api/v1/records"
           (Some "_acme-challenge ttl=16777217"))] /\
   Z.quot (libdns.TTL r) time.Second = 16777216%Z).
Proof.
  split.
  - intros W0 J0. do 2 eexists. split; [reflexivity|].
    split; [reflexivity | discriminate].
  - intros W0 J0 r. split; now vm_compute.
Qed.

Lemma hetzner_ttl_translation_witness :
  (let W := Fake.world [Fake.ok "zones"; Fake.ok "record"] in
   let J := hetzner_ttl_json [Fake.a_zone] [Fake.wire None] in
   let listing :=
     hetzner_sent "token"
       (built 0 "GET" "https://dns.hetzner.com/api/v1/zones?name=example.com"
          None) in
   snd (Hetzner.createRecord W J (Some 0) "token" "example.com"
          (a_record_with 0%Z) [])
   = [listing;
      hetzner_sent "token"
        (built 0 "POST" "https://dns.hetzner.com/api/v1/records"
           (Some "_acme-challenge ttl=0"))] /\
   snd (Hetzner.updateRecord W J (Some 0) "token" "example.com"
          (libdns.set_ID (a_record_with (90 * time.Second)%Z) "r1") [])
   = [listing;
      hetzner_sent "token"
        (built 0 "PUT" "https://dns.hetzner.com/api/v1/records/r1"
           (Some "_acme-challenge ttl=90"))]) /\
  (let W := Fake.world [Fake.ok "zones"; Fake.ok "records"] in
   let J :=
     Fake.hetzner_json [Fake.a_zone]
       [Fake.wire (Some 3600%Z); Fake.wire None] in
   exists zoneData wires rec1 rec2,
     Forall2 (inbound zoneData) wires [rec1; rec2] /\
     libdns.TTL rec1 = (3600 * time.Second)%Z /\
     libdns.TTL rec2 = (86400 * time.Second)%Z).
Proof.
  split.
  - intros W0 J0 listing. split.
    + apply (proj1 (hetzner_ttl_translation W0 J0 0 "token" "example.com"
                      (a_record_with 0%Z) [])
               Fake.a_zone [listing]).
      * right. exists 0%Z. split; [unfold fits_duration; lia | reflexivity].
      * reflexivity.
      * reflexivity.
      * reflexivity.
    + apply (proj1 (hetzner_ttl_translation W0 J0 0 "token" "example.com"
                      (libdns.set_ID (a_record_with (90 * time.Second)%Z)
                         "r1") [])
               Fake.a_zone [listing]).
      * left. split; [discriminate | reflexivity].
      * reflexivity.
      * reflexivity.
      * reflexivity.
  - intros W0 J0.
    destruct (proj2 (proj2 (proj2
                (hetzner_ttl_translation W0 J0 0 "token" "example.com"
                   Fake.a_record [])))
                (Some 0) _ _ eq_refl)
      as (zoneData & log0 & data & result & _ & _ & _ & H).
    do 4 eexists. split; [exact H|]. split; reflexivity.
Defined.

(** * The further properties on a scripted provider *)

Lemma hetzner_refused_request_panics_witness :
  Hetzner.createRecord (Fake.world []) (Fake.hetzner_json [] []) None
    "token" "example.com" Fake.a_record []
  = (Panicked nil_dereference, []) /\
  Hetzner.deleteRecord (Fake.world []) None "token" Fake.a_record []
  = (Panicked nil_dereference, []).
Proof.
  split.
  - apply (hetzner_refused_request_panics (Fake.world [])
             (Fake.hetzner_json [] []) None "token" "example.com"
             Fake.a_record []).
    now left.
  - apply (hetzner_refused_request_panics (Fake.world [])
             (Fake.hetzner_json [] []) None "token" "example.com"
             Fake.a_record []).
    now left.
Defined.

Lemma hetzner_unparsable_id_panics_witness :
  let W :=
    picky_world
      ("https://dns.hetzner.com/api/v1/records?zone_id="
       ++ Hetzner.zone.ID odd_zone)
      [Fake.ok "zones"] in
  let J := Fake.hetzner_json [odd_zone] [] in
  Hetzner.getAllRecords W J (Some 0) "token" "example.com" []
  = (Panicked nil_dereference,
     snd (Hetzner.getZoneData W J (Some 0) "token" "example.com" [])).
Proof.
  intros W0 J0.
  assert (H : Hetzner.getZoneData W0 J0 (Some 0) "token" "example.com" []
              = (Returned (odd_zone, None),
                 snd (Hetzner.getZoneData W0 J0 (Some 0) "token"
                        "example.com" [])))
    by reflexivity.
  apply (proj1 (hetzner_unparsable_id_panics W0 J0 (Some 0) "token"
                  "example.com" Fake.a_record [] odd_zone _ H)).
  discriminate.
Defined.

Lemma vercel_refused_request_is_an_error_witness :
  Vercel.updateRecord (Fake.world []) Fake.vercel_json None "token"
    "example.com" Fake.a_record []
  = (Returned (libdns.zero, Some "net/http: nil Context"), []).
Proof.
  apply (proj1 (proj2
           (vercel_refused_request_is_an_error (Fake.world [])
              Fake.vercel_json None "token" "example.com" Fake.a_record []
              "net/http: nil Context"))).
  reflexivity.
Defined.

Lemma hetzner_zone_failure_propagates_witness :
  let W := Fake.world [Fake.status 404] in
  let J := Fake.hetzner_json [Fake.a_zone] [] in
  Hetzner.createRecord W J (Some 0) "token" "example.com" Fake.a_record []
  = (Returned (libdns.zero, Some "Not Found (404)"),
     snd (Hetzner.getZoneData W J (Some 0) "token" "example.com" [])).
Proof.
  intros W0 J0.
  apply (proj1 (hetzner_zone_failure_propagates W0 J0 (Some 0) "token"
                  "example.com" Fake.a_record [] _) Hetzner.zone.zero).
  reflexivity.
Defined.

Lemma hetzner_createRecord_success_witness :
  let W := Fake.world [Fake.ok "zones"; Fake.ok "record"] in
  let J := Fake.hetzner_json [Fake.a_zone] [Fake.wire None] in
  exists z result rec,
    inbound z (Hetzner.created result) rec /\
    libdns.TTL rec = (86400 * time.Second)%Z.
Proof.
  intros W0 J0.
  destruct (hetzner_createRecord_success W0 J0 (Some 0) "token"
              "example.com" Fake.a_record [] _ _ eq_refl)
    as (c & z & b & response & data & result & _ & H).
  cbv zeta in H. destruct H as (_ & _ & _ & _ & _ & _ & _ & H).
  do 3 eexists. split; [exact H | reflexivity].
Defined.

Lemma hetzner_updateRecord_success_witness :
  let W := Fake.world [Fake.ok "zones"; Fake.ok "record"] in
  let J := Fake.hetzner_json [Fake.a_zone] [Fake.wire (Some 3600%Z)] in
  exists z result rec,
    inbound z (Hetzner.updated result) rec /\
    libdns.TTL rec = (3600 * time.Second)%Z.
Proof.
  intros W0 J0.
  destruct (hetzner_updateRecord_success W0 J0 (Some 0) "token"
              "example.com" (libdns.set_ID Fake.a_record "r1") [] _ _
              eq_refl)
    as (c & z & b & response & data & result & _ & H).
  cbv zeta in H. destruct H as (_ & _ & _ & _ & _ & _ & _ & H).
  do 3 eexists. split; [exact H | reflexivity].
Defined.

Lemma vercel_getAllRecords_success_witness :
  let W := Fake.world [Fake.ok "records"] in
  let J := fake_vercel_listing [a_vercel_record] in
  exists result rec,
    Forall2 vercel_inbound (Vercel.Records result) [rec] /\
    libdns.TTL rec = (60 * time.Second)%Z.
Proof.
  intros W0 J0.
  destruct (vercel_getAllRecords_success W0 J0 (Some 0) "token"
              "example.com" [] _ _ eq_refl)
    as (c & response & data & result & _ & H).
  cbv zeta in H. destruct H as (_ & _ & _ & _ & _ & H).
  do 2 eexists. split; [exact H | reflexivity].
Defined.

Lemma deleteRecord_outcome_witness :
  let W := Fake.world [Fake.ok ""] in
  exists err log1,
    Hetzner.deleteRecord W (Some 0) "token"
      (libdns.set_ID Fake.a_record "r1") []
    = (Returned err, log1) /\
    List.length log1 = 1.
Proof.
  intros W0.
  destruct (proj2 (deleteRecord_outcome W0 0 "token" "example.com"
                     (libdns.set_ID Fake.a_record "r1") []) eq_refl)
    as (err & E & _).
  exists err. eexists. split; [exact E | reflexivity].
Defined.

Lemma hetzner_error_values_witness :
  let W := Fake.world [Fake.status 404] in
  let J := Fake.hetzner_json [Fake.a_zone] [] in
  exists rec e log1,
    Hetzner.updateRecord W J (Some 0) "token" "example.com"
      (libdns.set_ID Fake.a_record "r1") []
    = (Returned (rec, Some e), log1) /\
    rec = libdns.zero.
Proof.
  intros W0 J0. do 3 eexists. split; [reflexivity|].
  eapply (proj1 (proj2 (proj2 (proj2
            (hetzner_error_values W0 J0 (Some 0) "token" "example.com"
               (libdns.set_ID Fake.a_record "r1") [] _ _))))).
  reflexivity.
Defined.
